(** * Automated transcription watcher: model and verified properties

    A shallow embedding of [main.py]: the processed-set store, the readiness
    detector, the media normaliser, the transcription orchestrator, the
    directory scanner and the live watcher's event handler.

    Conventions of the model.
    - Strings are sequences of 8-bit characters; [lower] is ASCII lowercasing.
    - Paths follow [pathlib.PurePosixPath] and [posixpath] (the watched
      directory is written ["./media"]).
    - The file system maps normalised path strings to file contents; only
      regular files are represented.
    - Time is a logical clock in whole seconds: [time.sleep d] advances it by
      exactly [d], every other operation is instantaneous.  While the
      program sleeps, other processes may rewrite the file system; that is the
      [external] component of the environment.
    - The external collaborators (ffmpeg, the Whisper model, the [json]
      module, [os.walk], file permissions) are the fields of [Env]. *)

From stdpp Require Import gmap strings list fin_maps.
From Stdlib Require Import ZArith Ascii String Lia.

Open Scope string_scope.
Open Scope list_scope.
Open Scope Z_scope.
Open Scope stdpp_scope.

(** ** Python strings *)

Module Str.

(** [c.lower()] on one ASCII character. *)
Definition ascii_lower (c : ascii) : ascii :=
  let n := nat_of_ascii c in
  if ((65 <=? n) && (n <=? 90))%nat then ascii_of_nat (n + 32) else c.

(** [s.lower()] *)
Fixpoint lower (s : string) : string :=
  match s with
  | EmptyString => EmptyString
  | String c s' => String (ascii_lower c) (lower s')
  end.

(** [s.split(sep)] for a one-character separator: never the empty list. *)
Fixpoint split (sep : ascii) (s : string) : list string :=
  match s with
  | EmptyString => [EmptyString]
  | String c s' =>
      if Ascii.eqb c sep then EmptyString :: split sep s'
      else match split sep s' with
           | [] => [String c EmptyString]
           | hd :: tl => String c hd :: tl
           end
  end.

(** [l[-1]] on a list of strings ([split] never returns the empty list). *)
Definition last (l : list string) : string := List.last l EmptyString.

(** [sep.join(l)] *)
Fixpoint join (sep : string) (l : list string) : string :=
  match l with
  | [] => EmptyString
  | [x] => x
  | x :: l' => x +:+ sep +:+ join sep l'
  end.

(** [c in s] for a character [c]. *)
Fixpoint contains (c : ascii) (s : string) : bool :=
  match s with
  | EmptyString => false
  | String c' s' => Ascii.eqb c' c || contains c s'
  end.

(** [s.startswith(c)] and [s.endswith(c)] for a character [c]. *)
Definition startswith (c : ascii) (s : string) : bool :=
  match s with
  | String c' _ => Ascii.eqb c' c
  | EmptyString => false
  end.

Fixpoint endswith (c : ascii) (s : string) : bool :=
  match s with
  | EmptyString => false
  | String c' EmptyString => Ascii.eqb c' c
  | String _ s' => endswith c s'
  end.

(** [s.lstrip(c)] *)
Fixpoint lstrip (c : ascii) (s : string) : string :=
  match s with
  | String c' s' => if Ascii.eqb c' c then lstrip c s' else s
  | EmptyString => EmptyString
  end.

(** [s.rfind(c)]: the index of the last occurrence of [c], [None] for -1. *)
Fixpoint rfind (c : ascii) (s : string) : option nat :=
  match s with
  | EmptyString => None
  | String c' s' =>
      match rfind c s' with
      | Some i => Some (S i)
      | None => if Ascii.eqb c' c then Some O else None
      end
  end.

(** [s[i:]] and [s[:i]] for [0 <= i]. *)
Fixpoint drop (i : nat) (s : string) : string :=
  match i, s with
  | O, _ => s
  | S i', String _ s' => drop i' s'
  | S _, EmptyString => EmptyString
  end.

Fixpoint take (i : nat) (s : string) : string :=
  match i, s with
  | O, _ => EmptyString
  | S i', String c s' => String c (take i' s')
  | S _, EmptyString => EmptyString
  end.

End Str.

(** ** [pathlib.PurePosixPath] and [posixpath] *)

Module Pathlib.

(** A parsed path: the root (empty, ["/"] or ["//"]) and the components
    after it. *)
Record PurePath := mkPath { root : string; parts : list string }.

(** [_PosixFlavour.splitroot] *)
Definition splitroot (part : string) : string * string :=
  if Str.startswith "/" part then
    let stripped := Str.lstrip "/" part in
    if (String.length part - String.length stripped =? 2)%nat
    then ("//", stripped) else ("/", stripped)
  else (EmptyString, part).

(** [Path(s)]: empty components and ["."] components are dropped. *)
Definition Path (s : string) : PurePath :=
  let '(r, rel) := splitroot s in
  mkPath r (List.filter
              (fun x => negb (String.eqb x EmptyString) && negb (String.eqb x "."))
              (Str.split "/" rel)).

(** [str(p)] *)
Definition str (p : PurePath) : string :=
  match root p, parts p with
  | EmptyString, [] => "."
  | r, l => r +:+ Str.join "/" l
  end.

(** [p.name] *)
Definition name (p : PurePath) : string := Str.last (parts p).

(** [p.suffix] *)
Definition suffix (p : PurePath) : string :=
  let n := name p in
  match Str.rfind "." n with
  | Some i =>
      if ((0 <? i) && (i <? String.length n - 1))%nat
      then Str.drop i n else EmptyString
  | None => EmptyString
  end.

(** [p.stem] *)
Definition stem (p : PurePath) : string :=
  let n := name p in
  match Str.rfind "." n with
  | Some i =>
      if ((0 <? i) && (i <? String.length n - 1))%nat
      then Str.take i n else n
  | None => n
  end.

(** [os.path.join(a, b)] *)
Definition os_path_join (a b : string) : string :=
  if Str.startswith "/" b then b
  else if String.eqb a EmptyString || Str.endswith "/" a then a +:+ b
  else a +:+ "/" +:+ b.

(** [os.path.basename(p)] *)
Definition os_path_basename (p : string) : string :=
  match Str.rfind "/" p with
  | Some i => Str.drop (S i) p
  | None => p
  end.

End Pathlib.

Import Pathlib.

(** ** Outcomes, the world and the program monad *)

(** The Python exceptions the program can meet. *)
Inductive exn :=
| ValueError
| FileNotFoundError
| PermissionError
| JSONDecodeError
| CalledProcessError (returncode : Z)
| TranscriptionError (msg : string).

(** How a call ends.  [OutOfFuel] marks a polling loop cut off by the model's
    iteration budget; it is not a behaviour of the program. *)
Inductive Outcome (A : Type) :=
| Returns (a : A)
| Raises (e : exn)
| OutOfFuel.
Arguments Returns {A} a.
Arguments Raises {A} e.
Arguments OutOfFuel {A}.

(** What the program does to the outside, in order of completion. *)
Inductive Event :=
| ESleep (seconds : Z)
| EPrint (msg : string)
| ERun (argv : list string)
| ETranscribe (audio : string)
| EWrite (path : string) (encoding : string) (text : string)
| EDump (path : string) (obj : gmap string string).

(** The value [json.load] hands back: a dict of strings, or something else
    (a list, a number, a dict with other values, ...). *)
Inductive PyValue :=
| PyDict (d : gmap string string)
| PyOther.

Record World := mkWorld {
  files : gmap string string;
  clock : Z;
  processed_files : gmap string string;
  trace : list Event
}.

(** The collaborators the program calls but does not implement. *)
Record Env := mkEnv {
  (** what other processes do to the files between time [t] and [t + d] *)
  external : Z -> Z -> gmap string string -> gmap string string;
  (** whether [open(path, "r")] and [open(path, "w")] are permitted *)
  readable : string -> bool;
  writable : string -> bool;
  (** [ffmpeg -i src dst]: the data left at [dst], if any, and the exit status *)
  ffmpeg : string -> string -> gmap string string -> option string * Z;
  (** [model.transcribe(audio)["text"]], or the exception it raises *)
  whisper : string -> gmap string string -> string + exn;
  (** [json.dump(obj, f, indent=4)] as text, and [json.load] on a text *)
  json_dumps : gmap string string -> string;
  json_loads : string -> option PyValue;
  (** [os.walk(top)]: the (root, dirs, files) triples *)
  os_walk : string -> gmap string string -> list (string * list string * list string)
}.

Definition M (A : Type) : Type := World -> World * Outcome A.

Definition ret {A} (a : A) : M A := fun w => (w, Returns a).

Definition raise {A} (e : exn) : M A := fun w => (w, Raises e).

Definition bind {A B} (m : M A) (k : A -> M B) : M B :=
  fun w =>
    match m w with
    | (w', Returns a) => k a w'
    | (w', Raises e) => (w', Raises e)
    | (w', OutOfFuel) => (w', OutOfFuel)
    end.

Declare Scope prog_scope.
Delimit Scope prog_scope with prog.
Bind Scope prog_scope with M.

Notation "x <- m ;; k" := (bind m (fun x => k))
  (at level 100, m at next level, k at level 200, right associativity) : prog_scope.
Notation "m ;; k" := (bind m (fun _ => k))
  (at level 100, k at level 200, right associativity) : prog_scope.

Definition emit (e : Event) : M unit :=
  fun w => (mkWorld (files w) (clock w) (processed_files w) (trace w ++ [e]), Returns tt).

(** [print(msg)] *)
Definition print (msg : string) : M unit := emit (EPrint msg).

(** [p.with_suffix(suffix)], with the [ValueError]s of pathlib. *)
Definition with_suffix (p : PurePath) (suffix' : string) : Outcome PurePath :=
  if Str.contains "/" suffix' then Raises ValueError
  else if (negb (String.eqb suffix' EmptyString) && negb (Str.startswith "." suffix'))
          || String.eqb suffix' "." then Raises ValueError
  else
    let name' := name p in
    if String.eqb name' EmptyString then Raises ValueError
    else
      let old_suffix := suffix p in
      let name'' :=
        if String.eqb old_suffix EmptyString then name' +:+ suffix'
        else Str.take (String.length name' - String.length old_suffix) name' +:+ suffix' in
      Returns (mkPath (root p) (removelast (parts p) ++ [name''])).

(** A component of a parsed path: not empty, not ["."], without a slash. *)
Definition component (x : string) : Prop :=
  x <> EmptyString /\ x <> "." /\ Str.contains "/" x = false.

(** The paths [Path] and [with_suffix] build. *)
Definition well_formed (p : PurePath) : Prop :=
  (root p = EmptyString \/ root p = "/" \/ root p = "//") /\ Forall component (parts p).

(** ** Configuration *)

Definition WATCH_DIR : string := "./media".
Definition PROCESSED_FILES : string := "processed_files.json".
Definition SUPPORTED_FORMATS : gset string :=
  {[ "mp3"; "wav"; "mp4"; "mkv"; "mov"; "flv"; "aac"; "m4a" ]}.

(** The literal set tested in [extract_audio]. *)
Definition VIDEO_SUFFIXES : gset string := {[ ".mp4"; ".mkv"; ".mov"; ".flv" ]}.

(** The two messages of [wait_for_download]. *)
Definition finished_message (file_path : string) : string :=
  "✅ File " +:+ file_path +:+ " has finished downloading.".

Definition timeout_message (file_path : string) : string :=
  "⚠️ Warning: Timeout reached while waiting for " +:+ file_path
  +:+ " to finish downloading.".

(** ** The program *)

Section Program.

Variable E : Env.

Open Scope prog_scope.

(** *** Operating-system and library calls *)

(** The key under which the file system stores the file a path string names. *)
Definition fs_key (p : string) : string := str (Path p).

Definition lift {A} (o : Outcome A) : M A := fun w => (w, o).

(** [os.path.exists(p)] *)
Definition os_path_exists (p : string) : M bool :=
  fun w => (w, Returns (bool_decide (is_Some (files w !! fs_key p)))).

(** [os.path.getsize(p)] *)
Definition os_path_getsize (p : string) : M nat :=
  fun w =>
    match files w !! fs_key p with
    | Some data => (w, Returns (String.length data))
    | None => (w, Raises FileNotFoundError)
    end.

(** [p.exists()] on a path object, which names its file by its string. *)
Definition path_exists (p : PurePath) : M bool :=
  fun w => (w, Returns (bool_decide (is_Some (files w !! str p)))).

(** [time.time()] *)
Definition time_time : M Z := fun w => (w, Returns (clock w)).

(** [time.sleep(d)]: the clock advances and the other processes run. *)
Definition time_sleep (d : Z) : M unit :=
  fun w =>
    if d <? 0 then (w, Raises ValueError)
    else (mkWorld (external E (clock w) d (files w)) (clock w + d)
                  (processed_files w) (trace w ++ [ESleep d]), Returns tt).

(** [with open(key, "r") as f: f.read()] *)
Definition read_text (key : string) : M string :=
  fun w =>
    match files w !! key with
    | Some data =>
        if readable E key then (w, Returns data) else (w, Raises PermissionError)
    | None => (w, Raises FileNotFoundError)
    end.

(** [with open(key, "w", encoding=encoding) as f: f.write(text)] *)
Definition write_text (key encoding text : string) : M unit :=
  fun w =>
    if writable E key
    then (mkWorld (<[key := text]> (files w)) (clock w) (processed_files w)
                  (trace w ++ [EWrite key encoding text]), Returns tt)
    else (w, Raises PermissionError).

(** [subprocess.run(["ffmpeg", "-i", src, dst], check=True)]; both arguments
    are strings of path objects, hence already normalised. *)
Definition subprocess_run_ffmpeg (src dst : string) : M unit :=
  fun w =>
    let '(out, returncode) := ffmpeg E src dst (files w) in
    let files' := match out with
                  | Some data => <[dst := data]> (files w)
                  | None => files w
                  end in
    let w' := mkWorld files' (clock w) (processed_files w)
                      (trace w ++ [ERun ["ffmpeg"; "-i"; src; dst]]) in
    if returncode =? 0 then (w', Returns tt)
    else (w', Raises (CalledProcessError returncode)).

(** [model.transcribe(audio)["text"]] *)
Definition model_transcribe (audio : string) : M string :=
  fun w =>
    let w' := mkWorld (files w) (clock w) (processed_files w)
                      (trace w ++ [ETranscribe audio]) in
    match whisper E audio (files w) with
    | inl text => (w', Returns text)
    | inr e => (w', Raises e)
    end.

(** [key in processed_files] and [processed_files[key] = value] on the shared
    dictionary. *)
Definition dict_contains (key : string) : M bool :=
  fun w => (w, Returns (bool_decide (is_Some (processed_files w !! key)))).

Definition dict_setitem (key value : string) : M unit :=
  fun w => (mkWorld (files w) (clock w) (<[key := value]> (processed_files w))
                    (trace w), Returns tt).

Definition the_dict : M (gmap string string) :=
  fun w => (w, Returns (processed_files w)).

(** *** Processed-set store *)

Definition load_processed_files : M PyValue :=
  present <- os_path_exists PROCESSED_FILES;;
  if present then
    text <- read_text (fs_key PROCESSED_FILES);;
    match json_loads E text with
    | Some v => ret v
    | None => raise JSONDecodeError
    end
  else ret (PyDict ∅).

Definition save_processed_files (d : gmap string string) : M unit :=
  fun w =>
    if writable E (fs_key PROCESSED_FILES)
    then (mkWorld (<[fs_key PROCESSED_FILES := json_dumps E d]> (files w))
                  (clock w) (processed_files w)
                  (trace w ++ [EDump PROCESSED_FILES d]), Returns tt)
    else (w, Raises PermissionError).

(** *** Readiness detector *)

(** The [while] loop of [wait_for_download]; [fuel] bounds the iterations. *)
Fixpoint wait_loop (fuel : nat) (file_path : string)
    (timeout check_interval start_time : Z) : M bool :=
  now <- time_time;;
  if now - start_time <? timeout then
    match fuel with
    | O => lift OutOfFuel
    | S fuel' =>
        present <- os_path_exists file_path;;
        if negb present then
          time_sleep check_interval;;
          wait_loop fuel' file_path timeout check_interval start_time
        else
          initial_size <- os_path_getsize file_path;;
          time_sleep check_interval;;
          size <- os_path_getsize file_path;;
          if (size =? initial_size)%nat then
            print (finished_message file_path);;
            ret true
          else wait_loop fuel' file_path timeout check_interval start_time
    end
  else
    print (timeout_message file_path);;
    ret false.

(** Iterations that suffice for a positive [check_interval]. *)
Definition poll_budget (timeout check_interval : Z) : nat :=
  S (Z.to_nat (timeout / check_interval)).

Definition wait_for_download (file_path : string) (timeout check_interval : Z) : M bool :=
  start_time <- time_time;;
  wait_loop (poll_budget timeout check_interval) file_path timeout check_interval start_time.

(** *** Media normaliser *)

Definition extract_audio (file_path : PurePath) : M PurePath :=
  let ext := Str.lower (suffix file_path) in
  if bool_decide (ext ∈ VIDEO_SUFFIXES) then
    audio_path <- lift (with_suffix file_path ".wav");;
    present <- path_exists audio_path;;
    (if negb present
     then subprocess_run_ffmpeg (str file_path) (str audio_path)
     else ret tt);;
    ret audio_path
  else ret file_path.

(** *** Transcription orchestrator *)

Definition transcribe_file (file_path : string) : M unit :=
  known <- dict_contains file_path;;
  if known then
    print ("Skipping already processed file: " +:+ file_path)
  else
    ready <- wait_for_download file_path 900 5;;
    if negb ready then
      print ("Skipping file " +:+ file_path +:+ " due to incomplete download.")
    else
      print ("Processing: " +:+ file_path);;
      audio_path <- extract_audio (Path file_path);;
      text <- model_transcribe (str audio_path);;
      text_file <- lift (with_suffix (Path file_path) ".txt");;
      write_text (str text_file) "utf-8" text;;
      dict_setitem file_path (name text_file);;
      d <- the_dict;;
      save_processed_files d;;
      print ("Saved transcription: " +:+ str text_file).

(** *** Directory scanner and live watcher *)

Fixpoint for_each {A} (l : list A) (body : A -> M unit) : M unit :=
  match l with
  | [] => ret tt
  | x :: l' => body x;; for_each l' body
  end.

(** The extension test of both discovery paths: [s.split(".")[-1].lower()]. *)
Definition last_dot_segment (s : string) : string :=
  Str.lower (Str.last (Str.split "." s)).

(** The two [for] loops of [scan_existing_files] over a directory listing. *)
Definition scan_walk (walk : list (string * list string * list string)) : M unit :=
  for_each walk (fun '(root, _, names) =>
    for_each names (fun file =>
      if bool_decide (last_dot_segment file ∈ SUPPORTED_FORMATS)
      then transcribe_file (os_path_join root file)
      else ret tt)).

(** [scan_existing_files]; the listing is taken when the walk starts. *)
Definition scan_existing_files : M unit :=
  fun w => scan_walk (os_walk E WATCH_DIR (files w)) w.

(** A watchdog file-system event. *)
Record FileSystemEvent := mkEvent { is_directory : bool; src_path : string }.

(** [FileEventHandler.on_created] *)
Definition on_created (event : FileSystemEvent) : M unit :=
  if is_directory event then ret tt
  else
    let ext := last_dot_segment (src_path event) in
    if bool_decide (ext ∈ SUPPORTED_FORMATS)
    then transcribe_file (src_path event)
    else ret tt.

End Program.

(** ** Observations on traces and worlds *)

Definition is_write (e : Event) : bool :=
  match e with EWrite _ _ _ => true | _ => false end.

Definition is_dump (e : Event) : bool :=
  match e with EDump _ _ => true | _ => false end.

Definition is_run (e : Event) : bool :=
  match e with ERun _ => true | _ => false end.

Definition is_transcribe (e : Event) : bool :=
  match e with ETranscribe _ => true | _ => false end.

Definition is_sleep (e : Event) : bool :=
  match e with ESleep _ => true | _ => false end.

Definition is_print (e : Event) : bool :=
  match e with EPrint _ => true | _ => false end.

(** How many events of a kind a trace holds. *)
Definition count (kind : Event -> bool) (tr : list Event) : nat :=
  List.length (List.filter kind tr).

(** The content of the durable state file. *)
Definition state_file (w : World) : option string :=
  files w !! fs_key PROCESSED_FILES.

(** [w'] extends the trace of [w] by [delta]. *)
Definition extends (w w' : World) (delta : list Event) : Prop :=
  trace w' = trace w ++ delta.

(** The size of a file, as [os.path.getsize] sees it. *)
Definition size_of (file_path : string) (fs : gmap string string) : option nat :=
  String.length <$> fs !! fs_key file_path.

(** The world after one [print]. *)
Definition printed (msg : string) (w : World) : World :=
  mkWorld (files w) (clock w) (processed_files w) (trace w ++ [EPrint msg]).

(** ** Worlds and relations used in the statements *)

(** The contract of the extraction tool: exit status 0 means the output file
    was produced. *)
Definition ffmpeg_produces_output (E : Env) : Prop :=
  forall src dst fs out, ffmpeg E src dst fs = (out, 0) -> is_Some out.

(** The world after [subprocess.run] of ffmpeg left [out] at [dst]. *)
Definition ran_ffmpeg (src dst : string) (out : option string) (w : World) : World :=
  mkWorld (match out with Some data => <[dst := data]> (files w) | None => files w end)
          (clock w) (processed_files w)
          (trace w ++ [ERun ["ffmpeg"; "-i"; src; dst]]).

(** Every run of [extract_audio], by cases. *)
Inductive Extracted (E : Env) (p : PurePath) (w : World) : World -> Outcome PurePath -> Prop :=
| Extracted_other :
    Str.lower (suffix p) ∉ VIDEO_SUFFIXES ->
    Extracted E p w w (Returns p)
| Extracted_present audio :
    Str.lower (suffix p) ∈ VIDEO_SUFFIXES ->
    with_suffix p ".wav" = Returns audio ->
    is_Some (files w !! str audio) ->
    Extracted E p w w (Returns audio)
| Extracted_converted audio out :
    Str.lower (suffix p) ∈ VIDEO_SUFFIXES ->
    with_suffix p ".wav" = Returns audio ->
    files w !! str audio = None ->
    ffmpeg E (str p) (str audio) (files w) = (out, 0) ->
    Extracted E p w (ran_ffmpeg (str p) (str audio) out w) (Returns audio)
| Extracted_failed audio out returncode :
    Str.lower (suffix p) ∈ VIDEO_SUFFIXES ->
    with_suffix p ".wav" = Returns audio ->
    files w !! str audio = None ->
    ffmpeg E (str p) (str audio) (files w) = (out, returncode) ->
    returncode <> 0 ->
    Extracted E p w (ran_ffmpeg (str p) (str audio) out w)
              (Raises (CalledProcessError returncode)).

(** The world after [time.sleep(d)] for [0 <= d]. *)
Definition slept (E : Env) (d : Z) (w : World) : World :=
  mkWorld (external E (clock w) d (files w)) (clock w + d)
          (processed_files w) (trace w ++ [ESleep d]).


(** Other processes leave the file stored under [key] alone. *)
Definition external_keeps (E : Env) (key : string) : Prop :=
  forall t d fs, external E t d fs !! key = fs !! key.

(** The worlds the orchestrator passes through. *)
Definition transcribed (audio : string) (w : World) : World :=
  mkWorld (files w) (clock w) (processed_files w) (trace w ++ [ETranscribe audio]).

Definition written (key text : string) (w : World) : World :=
  mkWorld (<[key := text]> (files w)) (clock w) (processed_files w)
          (trace w ++ [EWrite key "utf-8" text]).

Definition recorded (key value : string) (w : World) : World :=
  mkWorld (files w) (clock w) (<[key := value]> (processed_files w)) (trace w).

Definition saved (E : Env) (w : World) : World :=
  mkWorld (<[fs_key PROCESSED_FILES := json_dumps E (processed_files w)]> (files w))
          (clock w) (processed_files w)
          (trace w ++ [EDump PROCESSED_FILES (processed_files w)]).

(** Every run of [transcribe_file], by the step at which it ends. *)
Inductive Run (E : Env) (file_path : string) (w : World) : World -> Outcome unit -> Prop :=
| Run_known :
    is_Some (processed_files w !! file_path) ->
    Run E file_path w
        (printed ("Skipping already processed file: " +:+ file_path) w) (Returns tt)
| Run_unstable w1 :
    processed_files w !! file_path = None ->
    wait_for_download E file_path 900 5 w = (w1, Returns false) ->
    Run E file_path w
        (printed ("Skipping file " +:+ file_path +:+ " due to incomplete download.") w1)
        (Returns tt)
| Run_wait_raises w1 e :
    processed_files w !! file_path = None ->
    wait_for_download E file_path 900 5 w = (w1, Raises e) ->
    Run E file_path w w1 (Raises e)
| Run_extract_raises w1 w2 e :
    processed_files w !! file_path = None ->
    wait_for_download E file_path 900 5 w = (w1, Returns true) ->
    extract_audio E (Path file_path) (printed ("Processing: " +:+ file_path) w1)
      = (w2, Raises e) ->
    Run E file_path w w2 (Raises e)
| Run_transcribe_raises w1 w2 audio e :
    processed_files w !! file_path = None ->
    wait_for_download E file_path 900 5 w = (w1, Returns true) ->
    extract_audio E (Path file_path) (printed ("Processing: " +:+ file_path) w1)
      = (w2, Returns audio) ->
    whisper E (str audio) (files w2) = inr e ->
    Run E file_path w (transcribed (str audio) w2) (Raises e)
| Run_no_name w1 w2 audio text e :
    processed_files w !! file_path = None ->
    wait_for_download E file_path 900 5 w = (w1, Returns true) ->
    extract_audio E (Path file_path) (printed ("Processing: " +:+ file_path) w1)
      = (w2, Returns audio) ->
    whisper E (str audio) (files w2) = inl text ->
    with_suffix (Path file_path) ".txt" = Raises e ->
    Run E file_path w (transcribed (str audio) w2) (Raises e)
| Run_write_denied w1 w2 audio text text_file :
    processed_files w !! file_path = None ->
    wait_for_download E file_path 900 5 w = (w1, Returns true) ->
    extract_audio E (Path file_path) (printed ("Processing: " +:+ file_path) w1)
      = (w2, Returns audio) ->
    whisper E (str audio) (files w2) = inl text ->
    with_suffix (Path file_path) ".txt" = Returns text_file ->
    writable E (str text_file) = false ->
    Run E file_path w (transcribed (str audio) w2) (Raises PermissionError)
| Run_save_denied w1 w2 audio text text_file :
    processed_files w !! file_path = None ->
    wait_for_download E file_path 900 5 w = (w1, Returns true) ->
    extract_audio E (Path file_path) (printed ("Processing: " +:+ file_path) w1)
      = (w2, Returns audio) ->
    whisper E (str audio) (files w2) = inl text ->
    with_suffix (Path file_path) ".txt" = Returns text_file ->
    writable E (str text_file) = true ->
    writable E (fs_key PROCESSED_FILES) = false ->
    Run E file_path w
        (recorded file_path (name text_file)
           (written (str text_file) text (transcribed (str audio) w2)))
        (Raises PermissionError)
| Run_done w1 w2 audio text text_file :
    processed_files w !! file_path = None ->
    wait_for_download E file_path 900 5 w = (w1, Returns true) ->
    extract_audio E (Path file_path) (printed ("Processing: " +:+ file_path) w1)
      = (w2, Returns audio) ->
    whisper E (str audio) (files w2) = inl text ->
    with_suffix (Path file_path) ".txt" = Returns text_file ->
    writable E (str text_file) = true ->
    writable E (fs_key PROCESSED_FILES) = true ->
    Run E file_path w
        (printed ("Saved transcription: " +:+ str text_file)
           (saved E (recorded file_path (name text_file)
              (written (str text_file) text (transcribed (str audio) w2)))))
        (Returns tt).

(** Events that precede the transcript write: polling, progress messages and
    the two external calls. *)
Definition is_prelude (e : Event) : bool :=
  is_sleep e || is_print e || is_run e || is_transcribe e.

(** ** Stand-ins for the collaborators

    Small executable collaborators, used to run the model on concrete inputs. *)

Module Demo.

Definition newline : string := String (ascii_of_nat 10) EmptyString.
Definition dquote : ascii := ascii_of_nat 34.
Definition backslash : ascii := ascii_of_nat 92.

(** A JSON string literal for printable ASCII text. *)
Fixpoint escape (s : string) : string :=
  match s with
  | EmptyString => EmptyString
  | String c s' =>
      if Ascii.eqb c dquote || Ascii.eqb c backslash
      then String backslash (String c (escape s'))
      else String c (escape s')
  end.

Definition quote (s : string) : string :=
  String dquote (escape s) +:+ String dquote EmptyString.

(** The text [json.dump(d, f, indent=4)] writes for a dict of strings, with
    the keys in the order of [map_to_list]. *)
Definition dumps (d : gmap string string) : string :=
  match map_to_list d with
  | [] => "{}"
  | l => "{" +:+ newline
         +:+ Str.join ("," +:+ newline)
               (List.map (fun '(k, v) => "    " +:+ quote k +:+ ": " +:+ quote v) l)
         +:+ newline +:+ "}"
  end.

Definition is_space (c : ascii) : bool :=
  Ascii.eqb c " " || Ascii.eqb c (ascii_of_nat 10)
  || Ascii.eqb c (ascii_of_nat 13) || Ascii.eqb c (ascii_of_nat 9).

Fixpoint skip_ws (s : string) : string :=
  match s with
  | String c s' => if is_space c then skip_ws s' else s
  | EmptyString => EmptyString
  end.

(** The rest of a string literal after its opening quote, and what follows. *)
Fixpoint string_body (s : string) : option (string * string) :=
  match s with
  | EmptyString => None
  | String c s' =>
      if Ascii.eqb c dquote then Some (EmptyString, s')
      else if Ascii.eqb c backslash then
        match s' with
        | String e s'' =>
            if Ascii.eqb e dquote || Ascii.eqb e backslash || Ascii.eqb e "/" then
              match string_body s'' with
              | Some (t, rest) => Some (String e t, rest)
              | None => None
              end
            else None
        | EmptyString => None
        end
      else
        match string_body s' with
        | Some (t, rest) => Some (String c t, rest)
        | None => None
        end
  end.

Definition string_literal (s : string) : option (string * string) :=
  match s with
  | String c s' => if Ascii.eqb c dquote then string_body s' else None
  | EmptyString => None
  end.

(** The members of an object after its opening brace. *)
Fixpoint members (fuel : nat) (s : string) (acc : gmap string string)
    : option (gmap string string * string) :=
  match fuel with
  | O => None
  | S fuel' =>
      match string_literal (skip_ws s) with
      | Some (k, s1) =>
          match skip_ws s1 with
          | String ":" s2 =>
              match string_literal (skip_ws s2) with
              | Some (v, s3) =>
                  match skip_ws s3 with
                  | String "," s4 => members fuel' s4 (<[k := v]> acc)
                  | String "}" s4 => Some (<[k := v]> acc, s4)
                  | _ => None
                  end
              | None => None
              end
          | _ => None
          end
      | None => None
      end
  end.

(** A decoder for the documents [dumps] writes: an object whose members are
    strings.  Every other text is reported as a decoding error, as [json.load]
    does for the empty and the truncated documents used below. *)
Definition loads (text : string) : option PyValue :=
  match skip_ws text with
  | String "{" s1 =>
      match skip_ws s1 with
      | String "}" s2 =>
          match skip_ws s2 with
          | EmptyString => Some (PyDict ∅)
          | _ => None
          end
      | _ =>
          match members (String.length s1) s1 ∅ with
          | Some (d, s2) =>
              match skip_ws s2 with
              | EmptyString => Some (PyDict d)
              | _ => None
              end
          | None => None
          end
      end
  | _ => None
  end.

(** ffmpeg that converts every existing source. *)
Definition ffmpeg_ok (src dst : string) (fs : gmap string string) : option string * Z :=
  match fs !! src with
  | Some data => (Some ("RIFF" +:+ data), 0)
  | None => (None, 1)
  end.

(** ffmpeg that always fails without leaving an output. *)
Definition ffmpeg_broken (src dst : string) (fs : gmap string string) : option string * Z :=
  (None, 1).

Definition whisper_ok (audio : string) (fs : gmap string string) : string + exn :=
  match fs !! audio with
  | Some data => inl ("text of " +:+ audio)
  | None => inr (TranscriptionError "audio file not found")
  end.

Definition whisper_broken (audio : string) (fs : gmap string string) : string + exn :=
  inr (TranscriptionError "model failure").

(** Nothing else touches the files. *)
Definition quiet (t d : Z) (fs : gmap string string) : gmap string string := fs.

(** A download in progress: every file grows by one byte per sleep. *)
Definition growing (t d : Z) (fs : gmap string string) : gmap string string :=
  (fun data => data +:+ "x") <$> fs.

Definition listing (top : string) (fs : gmap string string)
    : list (string * list string * list string) :=
  [(top, [], ["clip.mp3"; "notes.pdf"; "mp3"])].

Definition env : Env :=
  mkEnv quiet (fun _ => true) (fun _ => true) ffmpeg_ok whisper_ok dumps loads listing.

Definition env_growing : Env :=
  mkEnv growing (fun _ => true) (fun _ => true) ffmpeg_ok whisper_ok dumps loads listing.

Definition env_no_ffmpeg : Env :=
  mkEnv quiet (fun _ => true) (fun _ => true) ffmpeg_broken whisper_ok dumps loads listing.

Definition env_no_model : Env :=
  mkEnv quiet (fun _ => true) (fun _ => true) ffmpeg_ok whisper_broken dumps loads listing.

Definition env_read_only : Env :=
  mkEnv quiet (fun _ => true) (fun _ => false) ffmpeg_ok whisper_ok dumps loads listing.

Definition env_locked : Env :=
  mkEnv quiet (fun _ => false) (fun _ => false) ffmpeg_ok whisper_ok dumps loads listing.

(** A watched directory holding one audio file, one video file, one document
    and a file named like a format. *)
Definition media : gmap string string :=
  {[ "media/clip.mp3" := "ID3 audio";
     "media/video.mp4" := "mp4 frames";
     "media/notes.pdf" := "%PDF";
     "media/mp3" := "odd" ]}.

Definition w0 : World := mkWorld media 0 ∅ [].

Definition clip : string := "./media/clip.mp3".
Definition video : string := "./media/video.mp4".

(** The world after the orchestrator has handled [clip] and [video]. *)
Definition after_clip : World := (transcribe_file env clip w0).1.
Definition after_video : World := (transcribe_file env video w0).1.

(** Two calls of the normaliser in a row on [video]. *)
Definition twice : World * Outcome PurePath :=
  bind (extract_audio env (Path video)) (fun _ => extract_audio env (Path video)) w0.

(** [video] when it has become ready, and after the extraction that fails. *)
Definition ready_video : World := (wait_for_download env_no_ffmpeg video 900 5 w0).1.
Definition failed_video : World :=
  (extract_audio env_no_ffmpeg (Path video)
     (printed ("Processing: " +:+ video) ready_video)).1.

(** [clip] when it has become ready, and after the transcription that fails. *)
Definition ready_clip : World := (wait_for_download env_no_model clip 900 5 w0).1.
Definition failed_clip : World :=
  transcribed "media/clip.mp3" (printed ("Processing: " +:+ clip) ready_clip).

(** A path nothing has been written to yet. *)
Definition later : string := "./media/later.mp3".

(** The state file as an interrupted [save_processed_files] leaves it: opened
    for writing, hence truncated, and nothing dumped. *)
Definition w_truncated : World :=
  mkWorld {[ "processed_files.json" := EmptyString ]} 0 ∅ [].

(** The state file after one recorded transcription. *)
Definition w_seeded : World :=
  mkWorld {[ "processed_files.json" := dumps {[ "a.mp3" := "a.txt" ]} ]} 0 ∅ [].

End Demo.

(** ** The scan as a sequence, and assumptions on the collaborators *)

(** The paths a scan hands to the orchestrator, in the order of the listing. *)
Definition supported_paths (walk : list (string * list string * list string)) : list string :=
  List.flat_map
    (fun '(root, _, names) =>
       List.map (os_path_join root)
         (List.filter (fun file => bool_decide (last_dot_segment file ∈ SUPPORTED_FORMATS))
            names))
    walk.

(** A path that is not there is still not there after a sleep of length [d]. *)
Definition stays_absent (E : Env) (file_path : string) (d : Z) : Prop :=
  forall t fs, fs !! fs_key file_path = None ->
    external E t d fs !! fs_key file_path = None.

(** The decoder reads back what the encoder writes for [d]. *)
Definition json_round_trip (E : Env) (d : gmap string string) : Prop :=
  json_loads E (json_dumps E d) = Some (PyDict d).

(** ** More stand-ins: files that vanish or arrive late, a failing ffmpeg *)

Module Cases.

(** Every file is removed while the program sleeps. *)
Definition vanishing (t d : Z) (fs : gmap string string) : gmap string string := ∅.

(** A file arrives, complete, during the first sleep. *)
Definition arriving (t d : Z) (fs : gmap string string) : gmap string string :=
  <["media/later.mp3" := "late audio"]> fs.

(** ffmpeg that fails after it has written part of its output. *)
Definition ffmpeg_partial (src dst : string) (fs : gmap string string) : option string * Z :=
  (Some "RIFF", 1).

Definition env_vanishing : Env :=
  mkEnv vanishing (fun _ => true) (fun _ => true) Demo.ffmpeg_ok Demo.whisper_ok
        Demo.dumps Demo.loads Demo.listing.

Definition env_arriving : Env :=
  mkEnv arriving (fun _ => true) (fun _ => true) Demo.ffmpeg_ok Demo.whisper_ok
        Demo.dumps Demo.loads Demo.listing.

Definition env_partial : Env :=
  mkEnv Demo.quiet (fun _ => true) (fun _ => true) ffmpeg_partial Demo.whisper_ok
        Demo.dumps Demo.loads Demo.listing.

(** One transcription on record, in memory and in a saved state. *)
Definition one_entry : gmap string string := {[ "a.mp3" := "a.txt" ]}.

Definition after_save : World := (save_processed_files Demo.env one_entry Demo.w0).1.

(** The second spelling of [Demo.clip], and the world after both spellings
    have been handled. *)
Definition clip_again : string := "media/clip.mp3".
Definition after_both : World := (transcribe_file Demo.env clip_again Demo.after_clip).1.

(** [Demo.clip] when [wait_for_download] has reported it ready. *)
Definition clip_ready : World := (wait_for_download Demo.env Demo.clip 900 5 Demo.w0).1.

(** [Demo.video] when [wait_for_download] has given up on the growing file. *)
Definition video_given_up : World :=
  (wait_for_download Demo.env_growing Demo.video 900 5 Demo.w0).1.

(** The audio sibling of [Demo.video]. *)
Definition video_wav : PurePath := mkPath EmptyString ["media"; "video.wav"].

(** A listing of the watched directory, and the world in which its audio file
    is already on record. *)
Definition walk : list (string * list string * list string) :=
  [("./media", [], ["clip.mp3"; "video.mp4"; "notes.pdf"])].

Definition walk_audio : list (string * list string * list string) :=
  [("./media", [], ["clip.mp3"; "notes.pdf"])].

Definition w_known : World := mkWorld Demo.media 0 {[ Demo.clip := "clip.txt" ]} [].

(** The scan under a failing ffmpeg: after the clip, and at the failure. *)
Definition scan_after_clip : World :=
  (for_each [Demo.clip] (transcribe_file Demo.env_no_ffmpeg) Demo.w0).1.
Definition scan_failed : World :=
  (transcribe_file Demo.env_no_ffmpeg Demo.video scan_after_clip).1.

End Cases.

(** * Properties *)

(** ** Strings and paths *)

Section PathFacts.

#[local] Arguments append !_ _ : simpl nomatch.

Lemma length_app (s t : string) :
  String.length (s +:+ t) = (String.length s + String.length t)%nat.
Proof. induction s as [|c s IH]; simpl; [done | by rewrite IH]. Qed.

Lemma length_drop i s : String.length (Str.drop i s) = (String.length s - i)%nat.
Proof.
  revert s. induction i as [|i IH]; intros [|c s]; simpl; done.
Qed.

Lemma last_snoc (l : list string) n : Str.last (l ++ [n]) = n.
Proof. unfold Str.last. apply last_last. Qed.

Lemma endswith_app c s t :
  t <> EmptyString -> Str.endswith c (s +:+ t) = Str.endswith c t.
Proof.
  intros Ht. induction s as [|c' s IH]; simpl; [done|].
  rewrite <- IH. destruct (s +:+ t) eqn:Hst; [|done].
  destruct s; simpl in Hst; [done | discriminate].
Qed.

(** The name a successful [with_suffix] builds, and what it keeps. *)
Lemma with_suffix_returns p sfx q :
  with_suffix p sfx = Returns q ->
  root q = root p /\ parts q = removelast (parts p) ++ [stem p +:+ sfx] /\
  name q = stem p +:+ sfx /\ name p <> EmptyString.
Proof.
  unfold with_suffix.
  destruct (Str.contains "/" sfx); [done|].
  destruct (_ || _); [done|].
  destruct (String.eqb (name p) EmptyString) eqn:Hn; [done|].
  apply String.eqb_neq in Hn.
  assert (Hstem : (if String.eqb (suffix p) EmptyString then name p +:+ sfx
           else Str.take (String.length (name p) - String.length (suffix p)) (name p) +:+ sfx)
          = stem p +:+ sfx).
  { unfold suffix, stem. destruct (Str.rfind "." (name p)) as [i|] eqn:Hr; [|done].
    destruct ((0 <? i)%nat && (i <? String.length (name p) - 1)%nat) eqn:Hc; [|done].
    apply andb_true_iff in Hc as [H0 H1]. apply Nat.ltb_lt in H0, H1.
    destruct (String.eqb (Str.drop i (name p)) EmptyString) eqn:Hd.
    - apply String.eqb_eq in Hd. apply (f_equal String.length) in Hd.
      rewrite length_drop in Hd. simpl in Hd. lia.
    - rewrite length_drop. do 2 f_equal. lia. }
  rewrite Hstem. intros [= <-]. simpl. unfold name at 1. simpl.
  by rewrite last_snoc.
Qed.

Lemma with_suffix_total p sfx :
  name p <> EmptyString -> sfx = ".wav" \/ sfx = ".txt" ->
  exists q, with_suffix p sfx = Returns q.
Proof.
  intros Hn Hs. unfold with_suffix.
  apply String.eqb_neq in Hn. rewrite Hn.
  destruct Hs as [-> | ->]; simpl; eauto.
Qed.

Lemma app_assoc_str (x y z : string) : (x +:+ y) +:+ z = x +:+ y +:+ z.
Proof. induction x as [|c x IH]; simpl; [done | by f_equal]. Qed.

Lemma nonempty_length (s : string) : s <> EmptyString <-> (0 < String.length s)%nat.
Proof. destruct s; simpl; split; (done || lia). Qed.

Lemma join_cons sep x (l : list string) :
  l <> [] -> Str.join sep (x :: l) = x +:+ sep +:+ Str.join sep l.
Proof. by destruct l. Qed.

Lemma join_snoc_length (l : list string) n :
  (String.length n <= String.length (Str.join "/" (l ++ [n])))%nat.
Proof.
  induction l as [|x l IH]; [done|].
  rewrite <- app_comm_cons, join_cons by (by destruct l).
  rewrite !length_app. lia.
Qed.

Lemma join_snoc_endswith c (l : list string) n :
  n <> EmptyString -> Str.endswith c (Str.join "/" (l ++ [n])) = Str.endswith c n.
Proof.
  intros Hn. induction l as [|x l IH]; [done|].
  rewrite <- app_comm_cons, join_cons by (by destruct l).
  rewrite <- app_assoc_str.
  rewrite endswith_app; [done|].
  apply nonempty_length. apply nonempty_length in Hn.
  pose proof (join_snoc_length l n). lia.
Qed.

Lemma str_endswith c p l n :
  parts p = l ++ [n] -> n <> EmptyString ->
  Str.endswith c (str p) = Str.endswith c n.
Proof.
  intros Hp Hn. unfold str. rewrite Hp.
  assert (Hne : Str.join "/" (l ++ [n]) <> EmptyString).
  { apply nonempty_length. apply nonempty_length in Hn.
    pose proof (join_snoc_length l n). lia. }
  destruct (root p); destruct (l ++ [n]) eqn:Hl; try (by destruct l);
    rewrite <- Hl in *.
  - simpl. by apply join_snoc_endswith.
  - rewrite endswith_app; [by apply join_snoc_endswith | done].
Qed.

(** A sibling built by [with_suffix] is never the durable state file. *)
Lemma with_suffix_not_state_file p sfx q :
  with_suffix p sfx = Returns q -> sfx = ".wav" \/ sfx = ".txt" ->
  str q <> fs_key PROCESSED_FILES.
Proof.
  intros Hq Hs Heq. apply with_suffix_returns in Hq as (_ & Hparts & _ & _).
  assert (Hne : stem p +:+ sfx <> EmptyString).
  { apply nonempty_length. rewrite length_app. destruct Hs as [-> | ->]; simpl; lia. }
  destruct Hs as [-> | ->].
  - pose proof (str_endswith "v" q _ _ Hparts Hne) as He.
    rewrite endswith_app in He by done. rewrite Heq in He. vm_compute in He. done.
  - pose proof (str_endswith "t" q _ _ Hparts Hne) as He.
    rewrite endswith_app in He by done. rewrite Heq in He. vm_compute in He. done.
Qed.

End PathFacts.

Section SplitFacts.

#[local] Arguments append !_ _ : simpl nomatch.

Lemma split_nonempty c s : Str.split c s <> [].
Proof.
  destruct s as [|a s]; simpl; [done|].
  destruct (Ascii.eqb a c); [done|]. by destruct (Str.split c s).
Qed.

Lemma split_no_sep c s : Str.contains c s = false -> Str.split c s = [s].
Proof.
  induction s as [|a s IH]; simpl; [done|].
  intros H. apply orb_false_iff in H as [Ha Hs].
  rewrite Ha, (IH Hs). done.
Qed.

Lemma split_sep c s :
  Str.contains c s = true -> exists x y l, Str.split c s = x :: y :: l.
Proof.
  induction s as [|a s IH]; simpl; [done|].
  destruct (Ascii.eqb a c) eqn:Ha; simpl.
  - intros _. destruct (Str.split c s) as [|y l] eqn:Hs; [by apply split_nonempty in Hs|].
    eauto.
  - intros H. destruct (IH H) as (x & y & l & ->). eauto.
Qed.

(** The segment after the last separator, one character at a time. *)
Lemma last_split_cons c a s :
  Str.last (Str.split c (String a s)) =
    if Ascii.eqb a c || Str.contains c s then Str.last (Str.split c s) else String a s.
Proof.
  unfold Str.last. simpl. destruct (Ascii.eqb a c) eqn:Ha; simpl.
  - destruct (Str.split c s) eqn:Hs; [by apply split_nonempty in Hs | done].
  - destruct (Str.contains c s) eqn:Hc.
    + destruct (split_sep c s Hc) as (x & y & l & ->). done.
    + by rewrite (split_no_sep c s Hc).
Qed.

Lemma last_split_no_sep c s :
  Str.contains c s = false -> Str.last (Str.split c s) = s.
Proof. intros H. by rewrite split_no_sep. Qed.

Lemma contains_app c s t :
  Str.contains c (s +:+ t) = Str.contains c s || Str.contains c t.
Proof.
  induction s as [|a s IH]; simpl; [done|]. by rewrite IH, orb_assoc.
Qed.

Lemma last_split_app c s t :
  Str.contains c t = false ->
  Str.last (Str.split c (s +:+ t)) = Str.last (Str.split c s) +:+ t.
Proof.
  intros Ht. induction s as [|a s IH].
  - simpl. by rewrite last_split_no_sep.
  - change (String a s +:+ t) with (String a (s +:+ t)).
    rewrite !last_split_cons, contains_app, Ht, orb_false_r.
    destruct (Ascii.eqb a c || Str.contains c s); [exact IH | done].
Qed.

Lemma rfind_None c s : Str.rfind c s = None <-> Str.contains c s = false.
Proof.
  induction s as [|a s IH]; simpl; [done|].
  destruct (Str.rfind c s) as [i|].
  - split; [done|]. intros H. apply orb_false_iff in H as [_ H].
    apply IH in H. done.
  - destruct IH as [IH _]. rewrite (IH eq_refl), orb_false_r.
    destruct (Ascii.eqb a c); done.
Qed.

(** [s.split(c)[-1]] is [s[s.rfind(c) + 1:]]. *)
Lemma last_split_rfind c s :
  Str.last (Str.split c s) =
    match Str.rfind c s with Some i => Str.drop (S i) s | None => s end.
Proof.
  induction s as [|a s IH]; [done|].
  rewrite last_split_cons. simpl.
  destruct (Str.rfind c s) as [i|] eqn:Hr.
  - assert (Str.contains c s = true) as ->.
    { destruct (Str.contains c s) eqn:Hc; [done|]. apply rfind_None in Hc. congruence. }
    rewrite orb_true_r. exact IH.
  - pose proof Hr as Hc. apply rfind_None in Hc. rewrite Hc, orb_false_r.
    destruct (Ascii.eqb a c); simpl; [|done]. by rewrite last_split_no_sep.
Qed.

(** [os.path.basename] is the segment after the last slash. *)
Lemma basename_last_split p : os_path_basename p = Str.last (Str.split "/" p).
Proof. unfold os_path_basename. by rewrite last_split_rfind. Qed.

Lemma rfind_drop c s i :
  Str.rfind c s = Some i -> Str.drop i s = String c (Str.drop (S i) s).
Proof.
  revert i. induction s as [|a s IH]; intros i; simpl; [done|].
  destruct (Str.rfind c s) as [j|].
  - intros [= <-]. by apply IH.
  - destruct (Ascii.eqb a c) eqn:Ha; [|done].
    intros [= <-]. apply Ascii.eqb_eq in Ha as ->. done.
Qed.

(** For a name with a suffix in pathlib's sense, the segment both discovery
    paths test is that suffix without its dot, lowercased. *)
Lemma suffix_last_dot_segment p ext :
  suffix p = String "." ext -> last_dot_segment (name p) = Str.lower ext.
Proof.
  unfold suffix, last_dot_segment. rewrite last_split_rfind.
  destruct (Str.rfind "." (name p)) as [i|] eqn:Hr; [|done].
  destruct ((0 <? i)%nat && (i <? String.length (name p) - 1)%nat); [|done].
  intros Hs. rewrite (rfind_drop _ _ _ Hr) in Hs. by injection Hs as <-.
Qed.

(** When the last dot segment of a path holds no slash, it is the last dot
    segment of the base name. *)
Lemma last_dot_of_basename p :
  Str.contains "/" (Str.last (Str.split "." p)) = false ->
  Str.last (Str.split "." (Str.last (Str.split "/" p))) = Str.last (Str.split "." p).
Proof.
  induction p as [|a p IH]; [done|].
  rewrite !last_split_cons.
  destruct (Ascii.eqb a "." || Str.contains "." p) eqn:Hd.
  - intros H. destruct (Ascii.eqb a "/" || Str.contains "/" p) eqn:Hs.
    + by apply IH.
    + by rewrite last_split_cons, Hd.
  - intros H. simpl in H. rewrite H. by rewrite last_split_cons, Hd.
Qed.

Lemma ascii_lower_slash a : Ascii.eqb (Str.ascii_lower a) "/" = Ascii.eqb a "/".
Proof. destruct a as [[] [] [] [] [] [] [] []]; reflexivity. Qed.

Lemma contains_slash_lower s : Str.contains "/" (Str.lower s) = Str.contains "/" s.
Proof.
  induction s as [|a s IH]; simpl; [done|]. by rewrite ascii_lower_slash, IH.
Qed.

Lemma supported_no_slash x : x ∈ SUPPORTED_FORMATS -> Str.contains "/" x = false.
Proof.
  unfold SUPPORTED_FORMATS. rewrite !elem_of_union, !elem_of_singleton.
  intros H. repeat (destruct H as [H|H]); by subst.
Qed.

(** What the watcher tests agrees with the file name's last dot segment
    whenever the watcher accepts. *)
Lemma watcher_accepts_basename src :
  last_dot_segment src ∈ SUPPORTED_FORMATS ->
  last_dot_segment (os_path_basename src) = last_dot_segment src.
Proof.
  intros H. apply supported_no_slash in H. unfold last_dot_segment in *.
  rewrite contains_slash_lower in H.
  by rewrite basename_last_split, last_dot_of_basename.
Qed.

(** A dotless name inside a directory never passes the watcher's test. *)
Lemma watcher_rejects_dotless dir file :
  Str.contains "." file = false ->
  last_dot_segment (dir +:+ "/" +:+ file) ∉ SUPPORTED_FORMATS.
Proof.
  intros Hf H. apply supported_no_slash in H. unfold last_dot_segment in H.
  rewrite contains_slash_lower in H.
  rewrite last_split_app in H by (simpl; by rewrite Hf).
  rewrite contains_app in H. simpl in H. by rewrite orb_true_r in H.
Qed.

End SplitFacts.

(** ** Path objects and the strings that name them *)

Section Normalisation.

#[local] Arguments append !_ _ : simpl nomatch.

Lemma split_elements c s : Forall (fun x => Str.contains c x = false) (Str.split c s).
Proof.
  induction s as [|a s IH]; simpl; [by repeat constructor|].
  destruct (Ascii.eqb a c) eqn:Ha; [by constructor|].
  destruct (Str.split c s) as [|hd tl]; [by repeat constructor; simpl; rewrite Ha|].
  apply Forall_cons in IH as [Hhd Htl]. constructor; [|done].
  simpl. by rewrite Ha, Hhd.
Qed.

Lemma split_app_sep c x rest :
  Str.contains c x = false ->
  Str.split c (x +:+ String c rest) = x :: Str.split c rest.
Proof.
  induction x as [|a x IH]; simpl.
  - intros _. by rewrite Ascii.eqb_refl.
  - intros H. apply orb_false_iff in H as [Ha Hx]. by rewrite Ha, (IH Hx).
Qed.

Lemma split_join (l : list string) :
  l <> [] -> Forall (fun x => Str.contains "/" x = false) l ->
  Str.split "/" (Str.join "/" l) = l.
Proof.
  induction l as [|x l IH]; [done|]. intros _ Hl.
  apply Forall_cons in Hl as [Hx Hl].
  destruct l as [|y l]; [by apply split_no_sep|].
  rewrite join_cons by done.
  change ("/" +:+ Str.join "/" (y :: l)) with (String "/" (Str.join "/" (y :: l))).
  rewrite split_app_sep by done. f_equal. by apply IH.
Qed.

Lemma filter_components (l : list string) :
  Forall component l ->
  List.filter (fun x => negb (String.eqb x EmptyString) && negb (String.eqb x ".")) l = l.
Proof.
  induction 1 as [|x l (Hx1 & Hx2 & _) _ IH]; [done|]. simpl.
  apply String.eqb_neq in Hx1, Hx2. by rewrite Hx1, Hx2, IH.
Qed.

Lemma join_starts (x : string) (l : list string) :
  component x -> Str.startswith "/" (Str.join "/" (x :: l)) = false /\
                 Str.lstrip "/" (Str.join "/" (x :: l)) = Str.join "/" (x :: l).
Proof.
  intros (Hx1 & _ & Hx3). destruct x as [|a x]; [done|].
  simpl in Hx3. apply orb_false_iff in Hx3 as [Ha _].
  destruct l; simpl; by rewrite Ha.
Qed.

(** Parsing the string of a well-formed path gives the path back. *)
Lemma Path_str p : well_formed p -> Path (str p) = p.
Proof.
  destruct p as [r l]. intros [Hr Hl]. simpl in *.
  assert (Hsplit : l <> [] ->
            List.filter (fun x => negb (String.eqb x EmptyString) && negb (String.eqb x "."))
              (Str.split "/" (Str.join "/" l)) = l).
  { intros Hne. rewrite split_join; [by apply filter_components | done |].
    eapply Forall_impl; [exact Hl|]. by intros x (_ & _ & Hx). }
  destruct l as [|x l].
  - destruct Hr as [-> | [-> | ->]]; reflexivity.
  - apply Forall_cons in Hl as [Hx Hl].
    destruct (join_starts x l Hx) as [Hstart Hstrip].
    specialize (Hsplit ltac:(done)).
    destruct Hr as [-> | [-> | ->]]; unfold Path, str, splitroot; cbn [root parts].
    + change (EmptyString +:+ Str.join "/" (x :: l)) with (Str.join "/" (x :: l)).
      rewrite Hstart. by rewrite Hsplit.
    + change ("/" +:+ Str.join "/" (x :: l)) with (String "/" (Str.join "/" (x :: l))).
      cbn [Str.startswith Str.lstrip Ascii.eqb Bool.eqb String.length].
      rewrite Hstrip.
      replace (S (String.length (Str.join "/" (x :: l))) - String.length (Str.join "/" (x :: l))
               =? 2)%nat with false by (symmetry; apply Nat.eqb_neq; lia).
      by rewrite Hsplit.
    + change ("//" +:+ Str.join "/" (x :: l))
        with (String "/" (String "/" (Str.join "/" (x :: l)))).
      cbn [Str.startswith Str.lstrip Ascii.eqb Bool.eqb String.length].
      rewrite Hstrip.
      replace (S (S (String.length (Str.join "/" (x :: l))))
               - String.length (Str.join "/" (x :: l)) =? 2)%nat
        with true by (symmetry; apply Nat.eqb_eq; lia).
      by rewrite Hsplit.
Qed.

Lemma Path_well_formed s : well_formed (Path s).
Proof.
  unfold Path, splitroot.
  assert (Hparts : forall rel, Forall component
            (List.filter (fun x => negb (String.eqb x EmptyString) && negb (String.eqb x "."))
               (Str.split "/" rel))).
  { intros rel. pose proof (split_elements "/" rel) as Hel.
    induction Hel as [|x l Hx _ IH]; [constructor|]. simpl.
    destruct (String.eqb x EmptyString) eqn:H1; [done|].
    destruct (String.eqb x ".") eqn:H2; [done|]. simpl.
    apply String.eqb_neq in H1, H2. by constructor. }
  destruct (Str.startswith "/" s); [destruct (_ =? 2)%nat|]; split; simpl; auto.
Qed.

Lemma contains_take c i s :
  Str.contains c s = false -> Str.contains c (Str.take i s) = false.
Proof.
  revert s. induction i as [|i IH]; intros [|a s]; simpl; try done.
  intros H. apply orb_false_iff in H as [Ha Hs]. by rewrite Ha, IH.
Qed.

Lemma Forall_removelast {A} (P : A -> Prop) (l : list A) :
  Forall P l -> Forall P (removelast l).
Proof.
  induction 1 as [|x l Hx Hl IH]; [constructor|]. simpl.
  destruct l; [constructor | by constructor].
Qed.

Lemma name_no_slash p : well_formed p -> Str.contains "/" (name p) = false.
Proof.
  intros [_ Hl]. unfold name, Str.last.
  induction Hl as [|x l (_ & _ & Hx) Hl IH]; [done|].
  simpl. by destruct l.
Qed.

Lemma with_suffix_well_formed p sfx q :
  well_formed p -> sfx = ".wav" \/ sfx = ".txt" ->
  with_suffix p sfx = Returns q -> well_formed q.
Proof.
  intros Hwf Hs Hq. pose proof (name_no_slash p Hwf) as Hn.
  destruct Hwf as [Hr Hl].
  apply with_suffix_returns in Hq as (Hroot & Hparts & _ & _).
  split; [by rewrite Hroot|]. rewrite Hparts.
  apply Forall_app. split; [by apply Forall_removelast|].
  constructor; [|constructor].
  assert (Hlen : (4 <= String.length (stem p +:+ sfx))%nat).
  { rewrite length_app. destruct Hs as [-> | ->]; simpl; lia. }
  repeat split.
  - intros H. rewrite H in Hlen. simpl in Hlen. lia.
  - intros H. rewrite H in Hlen. simpl in Hlen. lia.
  - rewrite contains_app. apply orb_false_iff. split.
    + unfold stem. destruct (Str.rfind "." (name p)); [|done].
      destruct (_ && _); [by apply contains_take | done].
    + by destruct Hs as [-> | ->].
Qed.

(** The file a path object names is the file its string names. *)
Lemma fs_key_str p : well_formed p -> fs_key (str p) = str p.
Proof. intros Hp. unfold fs_key. by rewrite Path_str. Qed.

(** The siblings the program derives from a path string are addressed by
    their own strings. *)
Lemma sibling_key s sfx q :
  sfx = ".wav" \/ sfx = ".txt" ->
  with_suffix (Path s) sfx = Returns q -> fs_key (str q) = str q.
Proof.
  intros Hs Hq. apply fs_key_str.
  eapply with_suffix_well_formed; [apply Path_well_formed | exact Hs | exact Hq].
Qed.

End Normalisation.

(** ** The stand-ins honour the contracts *)

Lemma demo_ffmpeg_contract : ffmpeg_produces_output Demo.env.
Proof.
  intros src dst fs out. simpl. unfold Demo.ffmpeg_ok.
  destruct (fs !! src); intros [= <-]; eauto.
Qed.

Lemma demo_quiet_keeps key : external_keeps Demo.env_no_ffmpeg key.
Proof. intros t d fs. reflexivity. Qed.


(** ** Effects of the components *)

Section Effects.
Variable E : Env.

Lemma transcribe_file_known file_path w :
  is_Some (processed_files w !! file_path) ->
  transcribe_file E file_path w =
    (printed ("Skipping already processed file: " +:+ file_path) w, Returns tt).
Proof.
  intros Hin. unfold transcribe_file, bind, dict_contains.
  rewrite bool_decide_eq_true_2 by done. reflexivity.
Qed.

(** Polling neither touches the dictionary nor does anything but sleep and print. *)
Lemma wait_loop_effect fuel file_path timeout check_interval start_time w w' r :
  wait_loop E fuel file_path timeout check_interval start_time w = (w', r) ->
  processed_files w' = processed_files w /\
  exists delta, extends w w' delta /\
    Forall (fun e => is_sleep e || is_print e = true) delta.
Proof.
  revert w. induction fuel as [|fuel IH]; intros w; simpl;
    unfold bind, time_time, lift, print, emit, ret; simpl.
  - destruct (clock w - start_time <? timeout); intros [= <- <-]; simpl.
    + split; [done|]. exists []. split; [unfold extends; by rewrite app_nil_r | constructor].
    + split; [done|]. eexists. split; [reflexivity|]. repeat constructor.
  - destruct (clock w - start_time <? timeout).
    2:{ intros [= <- <-]; simpl. split; [done|]. eexists. split; [reflexivity|]. repeat constructor. }
    unfold os_path_exists, os_path_getsize, time_sleep. 
    destruct (bool_decide (is_Some (files w !! fs_key file_path))) eqn:Hex; simpl.
    + destruct (files w !! fs_key file_path) as [data|] eqn:Hd; simpl.
      2:{ intros [= <- <-]. split; [done|]. exists []. split; [unfold extends; by rewrite app_nil_r | constructor]. }
      destruct (check_interval <? 0); simpl.
      { intros [= <- <-]. split; [done|]. exists []. split; [unfold extends; by rewrite app_nil_r | constructor]. }
      destruct (external E (clock w) check_interval (files w) !! fs_key file_path) as [data'|]; simpl.
      2:{ intros [= <- <-]. simpl. split; [done|]. eexists. split; [reflexivity|]. repeat constructor. }
      destruct (String.length data' =? String.length data)%nat.
      { intros [= <- <-]. simpl. split; [done|]. eexists. split; [unfold extends; simpl; by rewrite <- app_assoc|]. repeat constructor. }
      intros H. apply IH in H as [Hp (delta & Ht & Hq)]. simpl in *.
      split; [done|]. exists (ESleep check_interval :: delta). split.
      * unfold extends in *. simpl in *. by rewrite Ht, <- app_assoc.
      * by constructor.
    + destruct (check_interval <? 0); simpl.
      { intros [= <- <-]. split; [done|]. exists []. split; [unfold extends; by rewrite app_nil_r | constructor]. }
      intros H. apply IH in H as [Hp (delta & Ht & Hq)]. simpl in *.
      split; [done|]. exists (ESleep check_interval :: delta). split.
      * unfold extends in *. simpl in *. by rewrite Ht, <- app_assoc.
      * by constructor.
Qed.
End Effects.

Section Normaliser.
Variable E : Env.

Lemma video_suffix_name p :
  Str.lower (suffix p) ∈ VIDEO_SUFFIXES -> name p <> EmptyString.
Proof.
  intros Hv Hn. unfold suffix in Hv. rewrite Hn in Hv. simpl in Hv.
  unfold VIDEO_SUFFIXES in Hv.
  rewrite !elem_of_union, !elem_of_singleton in Hv.
  repeat (destruct Hv as [Hv|Hv]); discriminate.
Qed.

Lemma extract_audio_other p w :
  Str.lower (suffix p) ∉ VIDEO_SUFFIXES -> extract_audio E p w = (w, Returns p).
Proof.
  intros Hv. unfold extract_audio. by rewrite bool_decide_eq_false_2.
Qed.

Lemma extract_audio_present p audio w :
  Str.lower (suffix p) ∈ VIDEO_SUFFIXES ->
  with_suffix p ".wav" = Returns audio ->
  is_Some (files w !! str audio) ->
  extract_audio E p w = (w, Returns audio).
Proof.
  intros Hv Ha Hex. unfold extract_audio. rewrite bool_decide_eq_true_2 by done.
  unfold bind, lift, path_exists. rewrite Ha.
  by rewrite bool_decide_eq_true_2.
Qed.

Lemma extract_audio_absent p audio w out returncode :
  Str.lower (suffix p) ∈ VIDEO_SUFFIXES ->
  with_suffix p ".wav" = Returns audio ->
  files w !! str audio = None ->
  ffmpeg E (str p) (str audio) (files w) = (out, returncode) ->
  extract_audio E p w =
    (ran_ffmpeg (str p) (str audio) out w,
     if returncode =? 0 then Returns audio else Raises (CalledProcessError returncode)).
Proof.
  intros Hv Ha Hex Hf. unfold extract_audio. rewrite bool_decide_eq_true_2 by done.
  unfold bind, lift, path_exists. rewrite Ha.
  rewrite bool_decide_eq_false_2 by (rewrite Hex; by intros [? ?]).
  simpl. unfold subprocess_run_ffmpeg. rewrite Hf.
  by destruct (returncode =? 0).
Qed.

Lemma extract_audio_cases p w w' r :
  extract_audio E p w = (w', r) -> Extracted E p w w' r.
Proof.
  intros Hrun.
  destruct (decide (Str.lower (suffix p) ∈ VIDEO_SUFFIXES)) as [Hv|Hv].
  - destruct (with_suffix_total p ".wav") as [audio Ha]; [by apply video_suffix_name | by left |].
    destruct (files w !! str audio) as [data|] eqn:Hex.
    + rewrite (extract_audio_present p audio w) in Hrun by (done || by rewrite Hex).
      injection Hrun as <- <-. by eapply Extracted_present; [| |rewrite Hex].
    + destruct (ffmpeg E (str p) (str audio) (files w)) as [out code] eqn:Hf.
      rewrite (extract_audio_absent p audio w out code) in Hrun by done.
      injection Hrun as <- <-.
      destruct (code =? 0) eqn:Hc.
      * apply Z.eqb_eq in Hc as ->. by apply Extracted_converted.
      * apply Z.eqb_neq in Hc. by eapply Extracted_failed.
  - rewrite extract_audio_other in Hrun by done. injection Hrun as <- <-.
    by apply Extracted_other.
Qed.

(** Normalisation leaves the dictionary, the clock and every file but the
    audio sibling alone, and runs ffmpeg at most once. *)
Lemma extract_audio_effect p w w' r :
  extract_audio E p w = (w', r) ->
  processed_files w' = processed_files w /\ clock w' = clock w /\
  state_file w' = state_file w /\
  exists delta, extends w w' delta /\
    (delta = [] \/ exists src dst, delta = [ERun ["ffmpeg"; "-i"; src; dst]]).
Proof.
  intros Hrun. apply extract_audio_cases in Hrun.
  assert (Hkeep : forall audio out, with_suffix p ".wav" = Returns audio ->
            state_file (ran_ffmpeg (str p) (str audio) out w) = state_file w).
  { intros audio out Ha. unfold state_file, ran_ffmpeg. simpl.
    destruct out; [|done]. apply lookup_insert_ne.
    eapply with_suffix_not_state_file; eauto. }
  destruct Hrun; repeat split; auto.
  - exists []. split; [unfold extends; by rewrite app_nil_r | by left].
  - exists []. split; [unfold extends; by rewrite app_nil_r | by left].
  - eexists. split; [reflexivity | right; eauto].
  - eexists. split; [reflexivity | right; eauto].
Qed.

End Normaliser.

Section Readiness.
Variable E : Env.

Lemma size_of_Some file_path fs n :
  size_of file_path fs = Some n <->
  exists data, fs !! fs_key file_path = Some data /\ String.length data = n.
Proof.
  unfold size_of. destruct (fs !! fs_key file_path) as [data|]; simpl.
  - split; [intros [= <-]; eauto | intros (? & [= <-] & <-); done].
  - split; [done | by intros (? & ? & ?)].
Qed.

Lemma wait_loop_timed_out fuel file_path timeout check_interval start_time w :
  timeout <= clock w - start_time ->
  wait_loop E fuel file_path timeout check_interval start_time w =
    (printed (timeout_message file_path) w, Returns false).
Proof.
  intros Ht. destruct fuel; simpl; unfold bind, time_time;
    (destruct (clock w - start_time <? timeout) eqn:Hc; [apply Z.ltb_lt in Hc; lia | done]).
Qed.

(** One iteration on a path that does not exist yet: sleep, then retry. *)
Lemma wait_loop_absent fuel file_path timeout check_interval start_time w :
  clock w - start_time < timeout -> 0 <= check_interval ->
  files w !! fs_key file_path = None ->
  wait_loop E (S fuel) file_path timeout check_interval start_time w =
    wait_loop E fuel file_path timeout check_interval start_time (slept E check_interval w).
Proof.
  intros Ht Hi Hnone. simpl. unfold bind at 1, time_time.
  apply Z.ltb_lt in Ht. rewrite Ht.
  unfold bind at 1, os_path_exists. rewrite Hnone.
  rewrite bool_decide_eq_false_2 by (by intros [? ?]). simpl.
  unfold bind at 1, time_sleep.
  destruct (check_interval <? 0) eqn:Hc; [apply Z.ltb_lt in Hc; lia | done].
Qed.

(** One iteration on a path whose size is the same after the sleep. *)
Lemma wait_loop_stable fuel file_path timeout check_interval start_time w n :
  clock w - start_time < timeout -> 0 <= check_interval ->
  size_of file_path (files w) = Some n ->
  size_of file_path (files (slept E check_interval w)) = Some n ->
  wait_loop E (S fuel) file_path timeout check_interval start_time w =
    (printed (finished_message file_path) (slept E check_interval w), Returns true).
Proof.
  intros Ht Hi H1 H2. apply size_of_Some in H1 as (d1 & Hd1 & Hn1).
  apply size_of_Some in H2 as (d2 & Hd2 & Hn2).
  simpl. unfold bind at 1, time_time. apply Z.ltb_lt in Ht. rewrite Ht.
  unfold bind at 1, os_path_exists. rewrite Hd1.
  rewrite bool_decide_eq_true_2 by eauto. simpl.
  unfold bind at 1, os_path_getsize. rewrite Hd1.
  unfold bind at 1, time_sleep.
  destruct (check_interval <? 0) eqn:Hc; [apply Z.ltb_lt in Hc; lia |].
  fold (slept E check_interval w). unfold bind at 1. rewrite Hd2.
  rewrite Hn1, Hn2, Nat.eqb_refl. reflexivity.
Qed.

(** One iteration on a path whose size differs after the sleep. *)
Lemma wait_loop_changed fuel file_path timeout check_interval start_time w n n' :
  clock w - start_time < timeout -> 0 <= check_interval ->
  size_of file_path (files w) = Some n ->
  size_of file_path (files (slept E check_interval w)) = Some n' -> n' <> n ->
  wait_loop E (S fuel) file_path timeout check_interval start_time w =
    wait_loop E fuel file_path timeout check_interval start_time (slept E check_interval w).
Proof.
  intros Ht Hi H1 H2 Hne. apply size_of_Some in H1 as (d1 & Hd1 & Hn1).
  apply size_of_Some in H2 as (d2 & Hd2 & Hn2).
  simpl. unfold bind at 1, time_time. apply Z.ltb_lt in Ht. rewrite Ht.
  unfold bind at 1, os_path_exists. rewrite Hd1.
  rewrite bool_decide_eq_true_2 by eauto. simpl.
  unfold bind at 1, os_path_getsize. rewrite Hd1.
  unfold bind at 1, time_sleep.
  destruct (check_interval <? 0) eqn:Hc; [apply Z.ltb_lt in Hc; lia |].
  fold (slept E check_interval w). unfold bind at 1. rewrite Hd2.
  rewrite Hn1, Hn2. apply Nat.eqb_neq in Hne. by rewrite Hne.
Qed.

(** One iteration of the polling loop, by what the two size samples show. *)
Lemma wait_loop_step fuel file_path timeout check_interval start_time w :
  clock w - start_time < timeout -> 0 <= check_interval ->
  wait_loop E (S fuel) file_path timeout check_interval start_time w =
    match size_of file_path (files w) with
    | None =>
        wait_loop E fuel file_path timeout check_interval start_time
          (slept E check_interval w)
    | Some n =>
        match size_of file_path (files (slept E check_interval w)) with
        | None => (slept E check_interval w, Raises FileNotFoundError)
        | Some n' =>
            if (n' =? n)%nat
            then (printed (finished_message file_path) (slept E check_interval w),
                  Returns true)
            else wait_loop E fuel file_path timeout check_interval start_time
                   (slept E check_interval w)
        end
    end.
Proof.
  intros Ht Hi.
  destruct (size_of file_path (files w)) as [n|] eqn:H1.
  - destruct (size_of file_path (files (slept E check_interval w))) as [n'|] eqn:H2.
    + destruct (n' =? n)%nat eqn:Hn.
      * apply Nat.eqb_eq in Hn as ->. by eapply wait_loop_stable.
      * apply Nat.eqb_neq in Hn. by eapply wait_loop_changed.
    + apply size_of_Some in H1 as (d1 & Hd1 & Hn1).
      unfold size_of in H2. simpl in H2.
      destruct (external E (clock w) check_interval (files w) !! fs_key file_path)
        eqn:Hd2; [done|].
      simpl. unfold bind at 1, time_time. apply Z.ltb_lt in Ht. rewrite Ht.
      unfold bind at 1, os_path_exists. rewrite Hd1.
      rewrite bool_decide_eq_true_2 by eauto. simpl.
      unfold bind at 1, os_path_getsize. rewrite Hd1.
      unfold bind at 1, time_sleep.
      destruct (check_interval <? 0) eqn:Hc; [apply Z.ltb_lt in Hc; lia |].
      unfold bind at 1. simpl. rewrite Hd2. done.
  - unfold size_of in H1.
    destruct (files w !! fs_key file_path) eqn:Hd1; [done|].
    by apply wait_loop_absent.
Qed.

(** With a positive interval the iteration budget is never exhausted. *)
Lemma wait_loop_fuel fuel file_path timeout check_interval start_time w :
  0 < check_interval ->
  timeout - (clock w - start_time) <= Z.of_nat fuel * check_interval ->
  (wait_loop E fuel file_path timeout check_interval start_time w).2 <> OutOfFuel.
Proof.
  intros Hi. revert w. induction fuel as [|fuel IH]; intros w Hf.
  - rewrite wait_loop_timed_out by lia. done.
  - destruct (Z.lt_ge_cases (clock w - start_time) timeout) as [Ht|Ht].
    2:{ rewrite wait_loop_timed_out by lia. done. }
    assert (Hrec : (wait_loop E fuel file_path timeout check_interval start_time
                      (slept E check_interval w)).2 <> OutOfFuel).
    { apply IH. simpl. lia. }
    rewrite wait_loop_step by lia.
    destruct (size_of file_path (files w)); [|done].
    destruct (size_of file_path (files (slept E check_interval w))); [|done].
    by destruct (_ =? _)%nat.
Qed.

(** Polling changes the files only through the other processes. *)
Lemma wait_loop_keeps fuel file_path timeout check_interval start_time w w' r key :
  0 <= check_interval -> external_keeps E key ->
  wait_loop E fuel file_path timeout check_interval start_time w = (w', r) ->
  files w' !! key = files w !! key.
Proof.
  intros Hi Hkeep. revert w. induction fuel as [|fuel IH]; intros w.
  - destruct (Z.lt_ge_cases (clock w - start_time) timeout) as [Ht|Ht].
    + simpl. unfold bind, time_time, lift. apply Z.ltb_lt in Ht. rewrite Ht.
      by intros [= <- <-].
    + rewrite wait_loop_timed_out by lia. by intros [= <- <-].
  - destruct (Z.lt_ge_cases (clock w - start_time) timeout) as [Ht|Ht].
    2:{ rewrite wait_loop_timed_out by lia. by intros [= <- <-]. }
    assert (Hslept : files (slept E check_interval w) !! key = files w !! key)
      by apply Hkeep.
    rewrite wait_loop_step by done.
    destruct (size_of file_path (files w)) as [n|].
    + destruct (size_of file_path (files (slept E check_interval w))) as [n'|].
      * destruct (n' =? n)%nat.
        -- by intros [= <- <-].
        -- intros Hrun. by rewrite (IH _ Hrun).
      * by intros [= <- <-].
    + intros Hrun. by rewrite (IH _ Hrun).
Qed.

Lemma wait_for_download_keeps file_path timeout check_interval w w' r :
  0 <= check_interval -> external_keeps E (fs_key PROCESSED_FILES) ->
  wait_for_download E file_path timeout check_interval w = (w', r) ->
  state_file w' = state_file w.
Proof.
  intros Hi Hkeep. unfold wait_for_download, bind, time_time, state_file.
  by apply wait_loop_keeps.
Qed.

Lemma poll_budget_enough timeout check_interval :
  0 < check_interval ->
  timeout <= Z.of_nat (poll_budget timeout check_interval) * check_interval.
Proof.
  intros Hi. unfold poll_budget.
  destruct (Z.lt_ge_cases timeout 0) as [Hn|Hp].
  - nia.
  - rewrite Nat2Z.inj_succ, Z2Nat.id by (apply Z.div_pos; lia).
    pose proof (Z.div_mod timeout check_interval ltac:(lia)).
    pose proof (Z.mod_pos_bound timeout check_interval Hi). nia.
Qed.

Lemma wait_for_download_terminates file_path timeout check_interval w :
  0 < check_interval ->
  (wait_for_download E file_path timeout check_interval w).2 <> OutOfFuel.
Proof.
  intros Hi. unfold wait_for_download, bind, time_time.
  apply wait_loop_fuel; [done|].
  pose proof (poll_budget_enough timeout check_interval Hi). lia.
Qed.

Lemma wait_for_download_effect file_path timeout check_interval w w' r :
  wait_for_download E file_path timeout check_interval w = (w', r) ->
  processed_files w' = processed_files w /\
  exists delta, extends w w' delta /\
    Forall (fun e => is_sleep e || is_print e = true) delta.
Proof. unfold wait_for_download, bind, time_time. apply wait_loop_effect. Qed.




End Readiness.

Section OrchestratorCases.
Variable E : Env.

Lemma extract_audio_terminates p w : (extract_audio E p w).2 <> OutOfFuel.
Proof.
  destruct (extract_audio E p w) as [w' r] eqn:Hrun.
  apply extract_audio_cases in Hrun. by destruct Hrun.
Qed.

Lemma transcribe_file_cases file_path w w' r :
  transcribe_file E file_path w = (w', r) -> Run E file_path w w' r.
Proof.
  destruct (processed_files w !! file_path) as [v|] eqn:Hk.
  { rewrite transcribe_file_known by (by rewrite Hk). intros [= <- <-].
    apply Run_known. by rewrite Hk. }
  unfold transcribe_file. unfold bind at 1, dict_contains. rewrite Hk.
  rewrite bool_decide_eq_false_2 by (by intros [? ?]).
  unfold bind at 1.
  destruct (wait_for_download E file_path 900 5 w) as [w1 [[|]|e|]] eqn:Hw.
  - simpl. unfold bind at 1, print, emit.
    fold (printed ("Processing: " +:+ file_path) w1).
    unfold bind at 1.
    destruct (extract_audio E (Path file_path) (printed ("Processing: " +:+ file_path) w1))
      as [w2 [audio|e|]] eqn:Hx.
    + unfold bind at 1, model_transcribe. fold (transcribed (str audio) w2).
      destruct (whisper E (str audio) (files w2)) as [text|e] eqn:Ht.
      2:{ intros [= <- <-]. eapply Run_transcribe_raises; eauto. }
      unfold bind at 1, lift.
      destruct (with_suffix (Path file_path) ".txt") as [text_file|e|] eqn:Hs.
      * unfold bind at 1, write_text. simpl.
        destruct (writable E (str text_file)) eqn:Hw1.
        2:{ intros [= <- <-]. eapply Run_write_denied; eauto. }
        unfold bind, dict_setitem, the_dict, save_processed_files. simpl.
        destruct (writable E (fs_key PROCESSED_FILES)) eqn:Hw2.
        -- intros [= <- <-]. eapply Run_done; eauto.
        -- intros [= <- <-]. eapply Run_save_denied; eauto.
      * intros [= <- <-]. eapply Run_no_name; eauto.
      * exfalso. unfold with_suffix in Hs. simpl in Hs.
        destruct (String.eqb (name (Path file_path)) EmptyString); discriminate.
    + intros [= <- <-]. eapply Run_extract_raises; eauto.
    + exfalso. pose proof (extract_audio_terminates (Path file_path)
                              (printed ("Processing: " +:+ file_path) w1)) as Hn.
      rewrite Hx in Hn. done.
  - simpl. intros [= <- <-]. by apply Run_unstable.
  - intros [= <- <-]. by apply Run_wait_raises.
  - exfalso. pose proof (wait_for_download_terminates E file_path 900 5 w ltac:(lia)) as Hn.
    rewrite Hw in Hn. done.
Qed.

End OrchestratorCases.

Section OrchestratorTrace.
Variable E : Env.

Lemma count_app kind (a b : list Event) :
  count kind (a ++ b) = (count kind a + count kind b)%nat.
Proof. unfold count. by rewrite List.filter_app, List.length_app. Qed.

Lemma count_none kind (P : Event -> bool) (l : list Event) :
  (forall e, P e = true -> kind e = false) ->
  Forall (fun e => P e = true) l -> count kind l = 0%nat.
Proof.
  intros Hk Hl. unfold count. induction Hl as [|e l He _ IH]; [done|].
  simpl. by rewrite (Hk e He).
Qed.

Lemma extends_trans w1 w2 w3 d1 d2 :
  extends w1 w2 d1 -> extends w2 w3 d2 -> extends w1 w3 (d1 ++ d2).
Proof. unfold extends. intros H1 H2. by rewrite H2, H1, app_assoc. Qed.

Lemma transcribe_file_complete file_path w w' r :
  Run E file_path w w' r -> transcribe_file E file_path w = (w', r).
Proof.
  intros Hrun. destruct Hrun as [Hk|w1 Hk Hw|w1 e Hk Hw|w1 w2 e Hk Hw Hx
    |w1 w2 audio e Hk Hw Hx Ht|w1 w2 audio text e Hk Hw Hx Ht Hs
    |w1 w2 audio text tf Hk Hw Hx Ht Hs Hw1
    |w1 w2 audio text tf Hk Hw Hx Ht Hs Hw1 Hw2
    |w1 w2 audio text tf Hk Hw Hx Ht Hs Hw1 Hw2];
    [by apply transcribe_file_known|..];
    unfold transcribe_file; unfold bind at 1, dict_contains; rewrite Hk;
    rewrite bool_decide_eq_false_2 by (by intros [? ?]);
    unfold bind at 1; rewrite Hw; try done;
    simpl; unfold bind at 1, print, emit;
    fold (printed ("Processing: " +:+ file_path) w1);
    unfold bind at 1; rewrite Hx; try done;
    unfold bind at 1, model_transcribe; rewrite Ht; try done;
    unfold bind at 1, lift; rewrite Hs; try done;
    unfold bind at 1, write_text; simpl; rewrite Hw1; try done;
    unfold bind, dict_setitem, the_dict, save_processed_files; simpl;
    rewrite Hw2; done.
Qed.

(** From the call to the end of normalisation: only prelude events, and the
    dictionary is untouched. *)
Lemma ready_prefix file_path w w1 w2 r :
  wait_for_download E file_path 900 5 w = (w1, Returns true) ->
  extract_audio E (Path file_path) (printed ("Processing: " +:+ file_path) w1) = (w2, r) ->
  processed_files w2 = processed_files w /\ state_file w2 = state_file w1 /\
  exists pre, extends w w2 pre /\ Forall (fun e => is_prelude e = true) pre.
Proof.
  intros Hw Hx.
  apply wait_for_download_effect in Hw as (Hp1 & d1 & He1 & Hq1).
  apply extract_audio_effect in Hx as (Hp2 & _ & Hs2 & d2 & He2 & Hq2).
  split; [by rewrite Hp2; simpl|]. split; [exact Hs2|].
  exists (d1 ++ [EPrint ("Processing: " +:+ file_path)] ++ d2). split.
  - eapply extends_trans; [exact He1|]. eapply extends_trans; [|exact He2].
    reflexivity.
  - apply Forall_app. split.
    + eapply Forall_impl; [exact Hq1|]. intros e He. unfold is_prelude.
      simpl in He. by rewrite He.
    + apply Forall_cons. split; [done|].
      destruct Hq2 as [-> | (src & dst & ->)]; repeat constructor.
Qed.

End OrchestratorTrace.

Section Discovery.
Variable E : Env.

Lemma bind_ret_unit (m : M unit) w : bind m (fun _ => ret tt) w = m w.
Proof. unfold bind, ret. destruct (m w) as [w' [[]|e|]]; done. Qed.

Lemma for_each_app {A} (l1 l2 : list A) body w :
  for_each (l1 ++ l2) body w = bind (for_each l1 body) (fun _ => for_each l2 body) w.
Proof.
  revert w. induction l1 as [|x l1 IH]; intros w; simpl; [done|].
  unfold bind in *. destruct (body x w) as [w' [[]|e|]]; [apply IH | done | done].
Qed.

Lemma for_each_skip {A} (l1 l2 : list A) x body w :
  (forall v, body x v = (v, Returns tt)) ->
  for_each (l1 ++ x :: l2) body w = for_each (l1 ++ l2) body w.
Proof.
  intros Hx. rewrite !for_each_app. unfold bind.
  destruct (for_each l1 body w) as [w' [[]|e|]]; [|done|done].
  simpl. unfold bind. by rewrite Hx.
Qed.

End Discovery.

Section OrchestratorSuccess.
Variable E : Env.

Lemma prelude_no_write (l : list Event) :
  Forall (fun e => is_prelude e = true) l ->
  count is_write l = 0%nat /\ count is_dump l = 0%nat.
Proof.
  intros Hl. split; (eapply count_none; [|exact Hl]); intros [] He; done.
Qed.

(** A run that returns with the path recorded went through every step. *)
Lemma run_recorded file_path w w' :
  processed_files w !! file_path = None ->
  transcribe_file E file_path w = (w', Returns tt) ->
  is_Some (processed_files w' !! file_path) ->
  exists w1 w2 audio text text_file,
    wait_for_download E file_path 900 5 w = (w1, Returns true) /\
    extract_audio E (Path file_path) (printed ("Processing: " +:+ file_path) w1)
      = (w2, Returns audio) /\
    whisper E (str audio) (files w2) = inl text /\
    with_suffix (Path file_path) ".txt" = Returns text_file /\
    writable E (str text_file) = true /\
    writable E (fs_key PROCESSED_FILES) = true /\
    w' = printed ("Saved transcription: " +:+ str text_file)
           (saved E (recorded file_path (name text_file)
              (written (str text_file) text (transcribed (str audio) w2)))).
Proof.
  intros Hk Hrun Hrec. apply transcribe_file_cases in Hrun.
  inversion Hrun as [Hk'|w1 _ Hw|?|?|?|?|?|?|w1 w2 audio text tf _ Hw Hx Ht Hs Hw1 Hw2]; subst.
  - rewrite Hk in Hk'. by destruct Hk'.
  - apply wait_for_download_effect in Hw as [Hp _]. simpl in Hrec.
    rewrite Hp, Hk in Hrec. by destruct Hrec.
  - by exists w1, w2, audio, text, tf.
Qed.

End OrchestratorSuccess.

(** ** The model on concrete inputs *)

Example path_is_normalised : str (Path "./media//a.mp4") = "media/a.mp4".
Proof. reflexivity. Qed.

Example suffix_of_names :
  suffix (Path "a/b.tar.GZ") = ".GZ" /\ suffix (Path "a/.mp3") = EmptyString /\
  suffix (Path "a/b.") = EmptyString /\ stem (Path "a/b.tar.GZ") = "b.tar".
Proof. repeat split. Qed.

Example with_suffix_of_video :
  with_suffix (Path "./media/video.MP4") ".wav" = Returns (mkPath EmptyString ["media"; "video.wav"]).
Proof. reflexivity. Qed.

Example with_suffix_without_name : with_suffix (Path "/") ".txt" = Raises ValueError.
Proof. reflexivity. Qed.

Example last_dot_segment_of_names :
  last_dot_segment "Talk.MP3" = "mp3" /\ last_dot_segment "mp3" = "mp3" /\
  last_dot_segment "./media/mp3" = "/media/mp3" /\
  last_dot_segment "notes.pdf" = "pdf".
Proof. repeat split. Qed.

Example join_and_basename :
  os_path_join "./media" "a.mp3" = "./media/a.mp3" /\
  os_path_basename "./media/a.mp3" = "a.mp3".
Proof. split; reflexivity. Qed.

Example decoder_reads_encoder :
  Demo.loads (Demo.dumps {[ "./media/a.mp3" := "a.txt"; "b" := "c" ]})
    = Some (PyDict {[ "./media/a.mp3" := "a.txt"; "b" := "c" ]}) /\
  Demo.loads EmptyString = None /\ Demo.loads "{" = None.
Proof. repeat split; vm_compute; reflexivity. Qed.

(** Scenario: a new audio file of constant size. *)
Example new_audio_file :
  transcribe_file Demo.env Demo.clip Demo.w0 = (Demo.after_clip, Returns tt) /\
  files Demo.after_clip !! "media/clip.txt" = Some "text of media/clip.mp3" /\
  processed_files Demo.after_clip = {[ Demo.clip := "clip.txt" ]} /\
  clock Demo.after_clip = 5.
Proof. split; [|split; [|split]]; vm_compute; reflexivity. Qed.

(** Scenario: a video file is converted, then transcribed. *)
Example video_file :
  trace Demo.after_video =
    [ESleep 5;
     EPrint (finished_message Demo.video);
     EPrint ("Processing: " +:+ Demo.video);
     ERun ["ffmpeg"; "-i"; "media/video.mp4"; "media/video.wav"];
     ETranscribe "media/video.wav";
     EWrite "media/video.txt" "utf-8" "text of media/video.wav";
     EDump PROCESSED_FILES {[ Demo.video := "video.txt" ]};
     EPrint "Saved transcription: media/video.txt"] /\
  is_Some (files Demo.after_video !! "media/video.wav").
Proof. split; [vm_compute; reflexivity | vm_compute; eexists; reflexivity]. Qed.

(** Scenario: a download that never settles is given up on after 900 seconds. *)
Example growing_file :
  let '(w', r) := transcribe_file Demo.env_growing Demo.video Demo.w0 in
  r = Returns tt /\ clock w' = 900 /\ processed_files w' = ∅ /\
  count is_sleep (trace w') = 180%nat /\ count is_write (trace w') = 0%nat.
Proof. vm_compute. repeat split. Qed.

(** Scenario: a second run with the state of the first skips the file. *)
Example rerun_with_prior_state :
  let w := mkWorld Demo.media 0 {[ Demo.clip := "clip.txt" ]} [] in
  scan_walk Demo.env [("./media", [], ["clip.mp3"])] w =
    (printed ("Skipping already processed file: " +:+ Demo.clip) w, Returns tt).
Proof. vm_compute. reflexivity. Qed.

(** ** The claims *)

(** C1.  Calling [transcribe_file] on a path that is already a key of the
    processed set only prints the skip message: the files, the clock and the
    dictionary are unchanged and the trace gains no sleep, no ffmpeg run, no
    transcription, no transcript write and no dump of the state file.  Hence
    when a first call on an unprocessed path returns with the path recorded,
    a second call returns at once with the same files, clock and dictionary,
    and the two calls together made exactly one transcript write and one
    dump, and added exactly the one entry for the path. *)
Theorem transcribe_file_idempotent (E : Env) (file_path : string) (w : World) :
  (is_Some (processed_files w !! file_path) ->
   transcribe_file E file_path w =
     (printed ("Skipping already processed file: " +:+ file_path) w, Returns tt)) /\
  (forall w1 w2 r2,
     processed_files w !! file_path = None ->
     transcribe_file E file_path w = (w1, Returns tt) ->
     is_Some (processed_files w1 !! file_path) ->
     transcribe_file E file_path w1 = (w2, r2) ->
     r2 = Returns tt /\ files w2 = files w1 /\ clock w2 = clock w1 /\
     processed_files w2 = processed_files w1 /\
     (exists transcript_name,
        processed_files w2 = <[file_path := transcript_name]> (processed_files w)) /\
     exists delta, extends w w2 delta /\
       count is_write delta = 1%nat /\ count is_dump delta = 1%nat).
Proof.
  split; [apply transcribe_file_known|].
  intros w1 w2 r2 Hk Hfirst Hrec Hsecond.
  rewrite transcribe_file_known in Hsecond by done.
  injection Hsecond as <- <-.
  destruct (run_recorded E file_path w w1 Hk Hfirst Hrec)
    as (wa & wb & audio & text & tf & Hw & Hx & Ht & Hs & Hw1 & Hw2 & ->).
  destruct (ready_prefix E file_path w wa wb _ Hw Hx) as (Hp & _ & pre & Hpre & Hq).
  apply prelude_no_write in Hq as [Hq1 Hq2].
  repeat split; simpl.
  - exists (name tf). by rewrite Hp.
  - exists (pre ++ [ETranscribe (str audio); EWrite (str tf) "utf-8" text;
                    EDump PROCESSED_FILES (<[file_path := name tf]> (processed_files wb));
                    EPrint ("Saved transcription: " +:+ str tf);
                    EPrint ("Skipping already processed file: " +:+ file_path)]).
    split; [|split].
    + unfold extends in *. simpl. rewrite Hpre. rewrite <- !app_assoc. done.
    + rewrite count_app, Hq1. done.
    + rewrite count_app, Hq2. done.
Qed.

Lemma transcribe_file_idempotent_witness :
  processed_files Demo.w0 !! Demo.clip = None /\
  transcribe_file Demo.env Demo.clip Demo.w0 = (Demo.after_clip, Returns tt) /\
  is_Some (processed_files Demo.after_clip !! Demo.clip) /\
  transcribe_file Demo.env Demo.clip Demo.after_clip =
    (printed ("Skipping already processed file: " +:+ Demo.clip) Demo.after_clip,
     Returns tt) /\
  exists delta,
    extends Demo.w0
      (printed ("Skipping already processed file: " +:+ Demo.clip) Demo.after_clip)
      delta /\
    count is_write delta = 1%nat /\ count is_dump delta = 1%nat.
Proof.
  assert (H0 : processed_files Demo.w0 !! Demo.clip = None)
    by (vm_compute; reflexivity).
  assert (H1 : transcribe_file Demo.env Demo.clip Demo.w0 = (Demo.after_clip, Returns tt))
    by (vm_compute; reflexivity).
  assert (H2 : is_Some (processed_files Demo.after_clip !! Demo.clip))
    by (vm_compute; eexists; reflexivity).
  destruct (transcribe_file_idempotent Demo.env Demo.clip Demo.after_clip) as [Hskip _].
  destruct (transcribe_file_idempotent Demo.env Demo.clip Demo.w0) as [_ Htwice].
  specialize (Hskip H2).
  destruct (Htwice _ _ _ H0 H1 H2 Hskip) as (_ & _ & _ & _ & _ & Hdelta).
  split; [exact H0|]. split; [exact H1|]. split; [exact H2|].
  split; [exact Hskip | exact Hdelta].
Defined.

(** C2.  On an unprocessed path, [transcribe_file] writes the transcript,
    then records the entry, then saves, in this order and never otherwise.

    Order: every run ends in one of three ways.  Either nothing was written
    and the dictionary is unchanged; or the transcript was written, then the
    entry recorded, and the save of the state file was refused (the call
    raises); or the transcript was written, then the entry recorded, then the
    whole dictionary, entry included, dumped to the state file, and only then
    does the call return.  Before the transcript write the trace holds only
    sleeps, messages, the ffmpeg run and the transcription call, so no entry
    is ever recorded unless the transcript write succeeded before it.

    The steps are taken: when the file has become ready, the audio has been
    extracted, the model has returned a text and the transcript file may be
    written, the transcript holds that text and the entry is in the
    dictionary; the call then returns with the dictionary dumped to the state
    file after the write, or, when the state file may not be written, raises
    with the write done and the state file as it was when the file became
    ready.

    A call on a ready path that returns has written the transcript, recorded
    the entry and saved the dictionary, in this order. *)
Theorem transcribe_file_write_then_record_then_save
    (E : Env) (file_path : string) (w w' : World) (r : Outcome unit) :
  processed_files w !! file_path = None ->
  transcribe_file E file_path w = (w', r) ->
  (exists pre, Forall (fun e => is_prelude e = true) pre /\
    ((processed_files w' = processed_files w /\ extends w w' pre) \/
     (exists text_file text,
        with_suffix (Path file_path) ".txt" = Returns text_file /\
        processed_files w' = <[file_path := name text_file]> (processed_files w) /\
        files w' !! str text_file = Some text /\
        ((r = Raises PermissionError /\
          extends w w' (pre ++ [EWrite (str text_file) "utf-8" text])) \/
         (r = Returns tt /\
          extends w w'
            (pre ++ [EWrite (str text_file) "utf-8" text;
                     EDump PROCESSED_FILES (processed_files w');
                     EPrint ("Saved transcription: " +:+ str text_file)]) /\
          state_file w' = Some (json_dumps E (processed_files w'))))))) /\
  (forall w1 w2 audio text text_file,
     wait_for_download E file_path 900 5 w = (w1, Returns true) ->
     extract_audio E (Path file_path) (printed ("Processing: " +:+ file_path) w1)
       = (w2, Returns audio) ->
     whisper E (str audio) (files w2) = inl text ->
     with_suffix (Path file_path) ".txt" = Returns text_file ->
     writable E (str text_file) = true ->
     files w' !! str text_file = Some text /\
     processed_files w' = <[file_path := name text_file]> (processed_files w) /\
     exists pre, Forall (fun e => is_prelude e = true) pre /\
       if writable E (fs_key PROCESSED_FILES)
       then r = Returns tt /\
            extends w w'
              (pre ++ [EWrite (str text_file) "utf-8" text;
                       EDump PROCESSED_FILES (processed_files w');
                       EPrint ("Saved transcription: " +:+ str text_file)]) /\
            state_file w' = Some (json_dumps E (processed_files w'))
       else r = Raises PermissionError /\
            extends w w' (pre ++ [EWrite (str text_file) "utf-8" text]) /\
            state_file w' = state_file w1) /\
  (forall w1,
     wait_for_download E file_path 900 5 w = (w1, Returns true) ->
     r = Returns tt ->
     exists text_file text pre,
       Forall (fun e => is_prelude e = true) pre /\
       with_suffix (Path file_path) ".txt" = Returns text_file /\
       files w' !! str text_file = Some text /\
       processed_files w' = <[file_path := name text_file]> (processed_files w) /\
       extends w w'
         (pre ++ [EWrite (str text_file) "utf-8" text;
                  EDump PROCESSED_FILES (processed_files w');
                  EPrint ("Saved transcription: " +:+ str text_file)]) /\
       state_file w' = Some (json_dumps E (processed_files w'))).
Proof.
  intros Hk Hrun.
  assert (Hdone : forall w1 w2 audio text tf,
    wait_for_download E file_path 900 5 w = (w1, Returns true) ->
    extract_audio E (Path file_path) (printed ("Processing: " +:+ file_path) w1)
      = (w2, Returns audio) ->
    with_suffix (Path file_path) ".txt" = Returns tf ->
    let w3 := recorded file_path (name tf)
                (written (str tf) text (transcribed (str audio) w2)) in
    exists pre, Forall (fun e => is_prelude e = true) pre /\
      processed_files w3 = <[file_path := name tf]> (processed_files w) /\
      files w3 !! str tf = Some text /\
      state_file w3 = state_file w1 /\
      extends w w3 (pre ++ [EWrite (str tf) "utf-8" text]) /\
      let w4 := printed ("Saved transcription: " +:+ str tf) (saved E w3) in
      processed_files w4 = processed_files w3 /\
      files w4 !! str tf = Some text /\
      extends w w4 (pre ++ [EWrite (str tf) "utf-8" text;
                            EDump PROCESSED_FILES (processed_files w4);
                            EPrint ("Saved transcription: " +:+ str tf)]) /\
      state_file w4 = Some (json_dumps E (processed_files w4))).
  { intros w1 w2 audio text tf Hw Hx Hs w3.
    destruct (ready_prefix E file_path w w1 w2 _ Hw Hx) as (Hp & Hst & pre & Hpre & Hq).
    assert (Hne : fs_key PROCESSED_FILES <> str tf).
    { intros Heq. eapply with_suffix_not_state_file; eauto. }
    exists (pre ++ [ETranscribe (str audio)]).
    split; [apply Forall_app; split; [done | by repeat constructor]|].
    split; [subst w3; simpl; by rewrite Hp|].
    split; [subst w3; simpl; by rewrite lookup_insert_eq|].
    split.
    { subst w3. unfold state_file. simpl. rewrite lookup_insert_ne by done. exact Hst. }
    split; [subst w3; unfold extends in *; simpl; by rewrite Hpre, <- !app_assoc|].
    intros w4. split; [done|]. split.
    { subst w4 w3. simpl. by rewrite lookup_insert_ne, lookup_insert_eq. }
    split; [subst w4 w3; unfold extends in *; simpl; by rewrite Hpre, <- !app_assoc|].
    subst w4 w3. unfold state_file. simpl. by rewrite lookup_insert_eq. }
  pose proof (transcribe_file_cases E _ _ _ _ Hrun) as HR.
  assert (Hnil : forall v, extends v v []) by (intros v; unfold extends; by rewrite app_nil_r).
  assert (Hquiet : forall l, Forall (fun e => is_sleep e || is_print e = true) l ->
                             Forall (fun e => is_prelude e = true) l).
  { intros l Hl. eapply Forall_impl; [exact Hl|]. intros e He. simpl in He.
    unfold is_prelude. by rewrite He. }
  split; [|split].
  - inversion HR as [Hk'|w1 _ Hw|w1 e _ Hw|w1 w2 e _ Hw Hx
      |w1 w2 audio e _ Hw Hx Ht|w1 w2 audio text e _ Hw Hx Ht Hs
      |w1 w2 audio text tf _ Hw Hx Ht Hs Hw1
      |w1 w2 audio text tf _ Hw Hx Ht Hs Hw1 Hw2
      |w1 w2 audio text tf _ Hw Hx Ht Hs Hw1 Hw2]; subst.
    + rewrite Hk in Hk'. by destruct Hk'.
    + apply wait_for_download_effect in Hw as (Hp & d & He & Hq).
      exists (d ++ [EPrint ("Skipping file " +:+ file_path +:+ " due to incomplete download.")]).
      split; [apply Forall_app; split; [by apply Hquiet | by repeat constructor]|].
      left. split; [done|]. unfold extends in *. simpl. by rewrite He, app_assoc.
    + apply wait_for_download_effect in Hw as (Hp & d & He & Hq).
      exists d. split; [by apply Hquiet|]. by left.
    + destruct (ready_prefix E file_path w w1 w' _ Hw Hx) as (Hp & _ & pre & Hpre & Hq).
      exists pre. split; [done|]. by left.
    + destruct (ready_prefix E file_path w w1 w2 _ Hw Hx) as (Hp & _ & pre & Hpre & Hq).
      exists (pre ++ [ETranscribe (str audio)]).
      split; [apply Forall_app; split; [done | by repeat constructor]|].
      left. split; [done|]. unfold extends in *. simpl. by rewrite Hpre, app_assoc.
    + destruct (ready_prefix E file_path w w1 w2 _ Hw Hx) as (Hp & _ & pre & Hpre & Hq).
      exists (pre ++ [ETranscribe (str audio)]).
      split; [apply Forall_app; split; [done | by repeat constructor]|].
      left. split; [done|]. unfold extends in *. simpl. by rewrite Hpre, app_assoc.
    + destruct (ready_prefix E file_path w w1 w2 _ Hw Hx) as (Hp & _ & pre & Hpre & Hq).
      exists (pre ++ [ETranscribe (str audio)]).
      split; [apply Forall_app; split; [done | by repeat constructor]|].
      left. split; [done|]. unfold extends in *. simpl. by rewrite Hpre, app_assoc.
    + destruct (Hdone w1 w2 audio text tf Hw Hx Hs)
        as (pre & Hpre & Hp & Hf & _ & He & _).
      exists pre. split; [done|]. right. exists tf, text.
      split; [done|]. split; [done|]. split; [done|]. left. by split.
    + destruct (Hdone w1 w2 audio text tf Hw Hx Hs)
        as (pre & Hpre & _ & _ & _ & _ & Hp & Hf & He & Hst).
      exists pre. split; [done|]. right. exists tf, text.
      split; [done|]. split; [|split; [done|]].
      { simpl in *. destruct (ready_prefix E file_path w w1 w2 _ Hw Hx) as (Hp2 & _).
        by rewrite Hp2. }
      right. split; [done|]. by split.
  - intros w1 w2 audio text tf Hw Hx Ht Hs Hw1.
    destruct (Hdone w1 w2 audio text tf Hw Hx Hs)
      as (pre & Hpre & Hp3 & Hf3 & Hst3 & He3 & Hp4 & Hf4 & He4 & Hst4).
    destruct (writable E (fs_key PROCESSED_FILES)) eqn:Hw2.
    + pose proof (transcribe_file_complete E _ _ _ _
        (Run_done E file_path w w1 w2 audio text tf Hk Hw Hx Ht Hs Hw1 Hw2)) as Heq.
      rewrite Hrun in Heq. injection Heq as -> ->.
      split; [done|]. split; [by rewrite Hp4, Hp3|]. exists pre. by repeat split.
    + pose proof (transcribe_file_complete E _ _ _ _
        (Run_save_denied E file_path w w1 w2 audio text tf Hk Hw Hx Ht Hs Hw1 Hw2)) as Heq.
      rewrite Hrun in Heq. injection Heq as -> ->.
      split; [done|]. split; [done|]. exists pre. by repeat split.
  - intros v1 Hv Hr. subst r.
    inversion HR as [Hk'|w1 _ Hw|w1 e _ Hw|w1 w2 e _ Hw Hx
      |w1 w2 audio e _ Hw Hx Ht|w1 w2 audio text e _ Hw Hx Ht Hs
      |w1 w2 audio text tf _ Hw Hx Ht Hs Hw1
      |w1 w2 audio text tf _ Hw Hx Ht Hs Hw1 Hw2
      |w1 w2 audio text tf _ Hw Hx Ht Hs Hw1 Hw2]; subst.
    + rewrite Hk in Hk'. by destruct Hk'.
    + rewrite Hv in Hw. discriminate.
    + destruct (Hdone w1 w2 audio text tf Hw Hx Hs)
        as (pre & Hpre & Hp3 & _ & _ & _ & Hp4 & Hf4 & He4 & Hst4).
      exists tf, text, pre. split; [done|]. split; [done|]. split; [done|].
      split; [by rewrite Hp4, Hp3|]. by split.
Qed.

Lemma transcribe_file_write_then_record_then_save_witness :
  let text_file := mkPath EmptyString ["media"; "clip.txt"] in
  let text := "text of media/clip.mp3" in
  let started := printed ("Processing: " +:+ Demo.clip) Demo.ready_clip in
  processed_files Demo.w0 !! Demo.clip = None /\
  transcribe_file Demo.env Demo.clip Demo.w0 = (Demo.after_clip, Returns tt) /\
  wait_for_download Demo.env Demo.clip 900 5 Demo.w0 = (Demo.ready_clip, Returns true) /\
  extract_audio Demo.env (Path Demo.clip) started = (started, Returns (Path Demo.clip)) /\
  whisper Demo.env (str (Path Demo.clip)) (files started) = inl text /\
  with_suffix (Path Demo.clip) ".txt" = Returns text_file /\
  writable Demo.env (str text_file) = true /\
  files Demo.after_clip !! str text_file = Some text /\
  processed_files Demo.after_clip
    = <[Demo.clip := name text_file]> (processed_files Demo.w0) /\
  (exists pre, Forall (fun e => is_prelude e = true) pre /\
     extends Demo.w0 Demo.after_clip
       (pre ++ [EWrite (str text_file) "utf-8" text;
                EDump PROCESSED_FILES (processed_files Demo.after_clip);
                EPrint ("Saved transcription: " +:+ str text_file)]) /\
     state_file Demo.after_clip
       = Some (json_dumps Demo.env (processed_files Demo.after_clip))) /\
  (exists text_file' text' pre,
     Forall (fun e => is_prelude e = true) pre /\
     with_suffix (Path Demo.clip) ".txt" = Returns text_file' /\
     files Demo.after_clip !! str text_file' = Some text' /\
     processed_files Demo.after_clip
       = <[Demo.clip := name text_file']> (processed_files Demo.w0) /\
     extends Demo.w0 Demo.after_clip
       (pre ++ [EWrite (str text_file') "utf-8" text';
                EDump PROCESSED_FILES (processed_files Demo.after_clip);
                EPrint ("Saved transcription: " +:+ str text_file')]) /\
     state_file Demo.after_clip
       = Some (json_dumps Demo.env (processed_files Demo.after_clip))).
Proof.
  intros text_file text started.
  assert (H0 : processed_files Demo.w0 !! Demo.clip = None)
    by (vm_compute; reflexivity).
  assert (H1 : transcribe_file Demo.env Demo.clip Demo.w0 = (Demo.after_clip, Returns tt))
    by (vm_compute; reflexivity).
  assert (H2 : wait_for_download Demo.env Demo.clip 900 5 Demo.w0
               = (Demo.ready_clip, Returns true)) by (vm_compute; reflexivity).
  assert (H3 : extract_audio Demo.env (Path Demo.clip) started
               = (started, Returns (Path Demo.clip))) by (vm_compute; reflexivity).
  assert (H4 : whisper Demo.env (str (Path Demo.clip)) (files started) = inl text)
    by (vm_compute; reflexivity).
  assert (H5 : with_suffix (Path Demo.clip) ".txt" = Returns text_file)
    by (vm_compute; reflexivity).
  assert (H6 : writable Demo.env (str text_file) = true) by reflexivity.
  destruct (transcribe_file_write_then_record_then_save
              Demo.env Demo.clip Demo.w0 Demo.after_clip (Returns tt) H0 H1)
    as (_ & Hsteps & Hreturns).
  destruct (Hsteps Demo.ready_clip started (Path Demo.clip) text text_file H2 H3 H4 H5 H6)
    as (Hf & Hp & pre & Hpre & Hr & He & Hs).
  split; [exact H0|]. split; [exact H1|]. split; [exact H2|]. split; [exact H3|].
  split; [exact H4|]. split; [exact H5|]. split; [exact H6|]. split; [exact Hf|].
  split; [exact Hp|]. split.
  - exists pre. split; [exact Hpre|]. split; [exact He | exact Hs].
  - exact (Hreturns Demo.ready_clip H2 eq_refl).
Defined.



(** C4, as amended.  [load_processed_files] returns the empty mapping when
    the state file is absent and the decoded value when the file is readable
    and decodes.  When the text does not decode it raises [JSONDecodeError],
    and when the file cannot be opened it raises [PermissionError]: nothing
    is caught. *)
Theorem load_processed_files_cases (E : Env) (w : World) :
  (files w !! fs_key PROCESSED_FILES = None ->
   load_processed_files E w = (w, Returns (PyDict ∅))) /\
  (forall text,
     files w !! fs_key PROCESSED_FILES = Some text ->
     readable E (fs_key PROCESSED_FILES) = true ->
     load_processed_files E w =
       (w, match json_loads E text with
           | Some v => Returns v
           | None => Raises JSONDecodeError
           end)) /\
  (forall text,
     files w !! fs_key PROCESSED_FILES = Some text ->
     readable E (fs_key PROCESSED_FILES) = false ->
     load_processed_files E w = (w, Raises PermissionError)).
Proof.
  unfold load_processed_files, bind, os_path_exists, read_text.
  split; [|split].
  - intros Hf. rewrite Hf. by rewrite bool_decide_eq_false_2 by (by intros [? ?]).
  - intros text Hf Hr. rewrite Hf. rewrite bool_decide_eq_true_2 by eauto.
    rewrite Hf, Hr. by destruct (json_loads E text).
  - intros text Hf Hr. rewrite Hf. rewrite bool_decide_eq_true_2 by eauto.
    by rewrite Hf, Hr.
Qed.

(** C4 as stated fails: on a state file that exists but holds no JSON
    document the load raises instead of returning an empty mapping. *)
Lemma load_processed_files_truncated_raises :
  load_processed_files Demo.env Demo.w_truncated =
    (Demo.w_truncated, Raises JSONDecodeError) /\
  ~ (exists d, load_processed_files Demo.env Demo.w_truncated =
                 (Demo.w_truncated, Returns (PyDict d))).
Proof.
  assert (H : load_processed_files Demo.env Demo.w_truncated =
              (Demo.w_truncated, Raises JSONDecodeError)) by (vm_compute; reflexivity).
  split; [exact H|]. intros [d Hd]. rewrite H in Hd. discriminate.
Qed.

Lemma load_processed_files_cases_witness :
  load_processed_files Demo.env Demo.w0 = (Demo.w0, Returns (PyDict ∅)) /\
  load_processed_files Demo.env Demo.w_seeded =
    (Demo.w_seeded, Returns (PyDict {[ "a.mp3" := "a.txt" ]})) /\
  load_processed_files Demo.env_locked Demo.w_seeded =
    (Demo.w_seeded, Raises PermissionError).
Proof.
  destruct (load_processed_files_cases Demo.env Demo.w0) as (Habsent & _ & _).
  destruct (load_processed_files_cases Demo.env Demo.w_seeded) as (_ & Hpresent & _).
  destruct (load_processed_files_cases Demo.env_locked Demo.w_seeded) as (_ & _ & Hlocked).
  split; [|split].
  - apply Habsent. vm_compute. reflexivity.
  - rewrite (Hpresent (Demo.dumps {[ "a.mp3" := "a.txt" ]}))
      by (vm_compute; reflexivity).
    vm_compute. reflexivity.
  - apply (Hlocked (Demo.dumps {[ "a.mp3" := "a.txt" ]})); vm_compute; reflexivity.
Defined.

(** C5.  Once the file is ready, an exception raised by [extract_audio]
    (a nonzero exit status of ffmpeg included) or by the transcription call
    comes out of [transcribe_file] unchanged.  The dictionary is then the one
    the call started with, the state file holds what it held when the file
    became ready (what it held at the start of the call, when no other
    process rewrites it), and the call wrote no transcript and dumped
    nothing. *)
Theorem transcribe_file_failure_propagates
    (E : Env) (file_path : string) (w w1 w2 : World) (e : exn) :
  processed_files w !! file_path = None ->
  wait_for_download E file_path 900 5 w = (w1, Returns true) ->
  (extract_audio E (Path file_path) (printed ("Processing: " +:+ file_path) w1)
     = (w2, Raises e) \/
   exists audio w2',
     extract_audio E (Path file_path) (printed ("Processing: " +:+ file_path) w1)
       = (w2', Returns audio) /\
     whisper E (str audio) (files w2') = inr e /\
     w2 = transcribed (str audio) w2') ->
  transcribe_file E file_path w = (w2, Raises e) /\
  processed_files w2 = processed_files w /\
  state_file w2 = state_file w1 /\
  (external_keeps E (fs_key PROCESSED_FILES) -> state_file w2 = state_file w) /\
  exists delta, extends w w2 delta /\
    count is_write delta = 0%nat /\ count is_dump delta = 0%nat.
Proof.
  intros Hk Hw Hfail.
  assert (Hstart : external_keeps E (fs_key PROCESSED_FILES) ->
                   state_file w1 = state_file w).
  { intros Hkeep. eapply wait_for_download_keeps; [|exact Hkeep|exact Hw]. lia. }
  destruct Hfail as [Hx | (audio & w2' & Hx & Ht & ->)].
  - split; [apply transcribe_file_complete; by eapply Run_extract_raises|].
    destruct (ready_prefix E file_path w w1 w2 _ Hw Hx) as (Hp & Hs & pre & Hpre & Hq).
    split; [done|]. split; [done|].
    split; [intros Hkeep; by rewrite Hs, Hstart|].
    exists pre. split; [done|]. by apply prelude_no_write.
  - split; [apply transcribe_file_complete; by eapply Run_transcribe_raises|].
    destruct (ready_prefix E file_path w w1 w2' _ Hw Hx) as (Hp & Hs & pre & Hpre & Hq).
    split; [done|]. split; [done|].
    split; [intros Hkeep; rewrite <- Hstart by done; exact Hs|].
    exists (pre ++ [ETranscribe (str audio)]).
    split; [unfold extends in *; simpl; by rewrite Hpre, app_assoc|].
    apply prelude_no_write. apply Forall_app. split; [done | by repeat constructor].
Qed.

Lemma transcribe_file_failure_propagates_witness :
  (processed_files Demo.w0 !! Demo.video = None /\
   wait_for_download Demo.env_no_ffmpeg Demo.video 900 5 Demo.w0
     = (Demo.ready_video, Returns true) /\
   extract_audio Demo.env_no_ffmpeg (Path Demo.video)
     (printed ("Processing: " +:+ Demo.video) Demo.ready_video)
     = (Demo.failed_video, Raises (CalledProcessError 1)) /\
   transcribe_file Demo.env_no_ffmpeg Demo.video Demo.w0
     = (Demo.failed_video, Raises (CalledProcessError 1)) /\
   processed_files Demo.failed_video = processed_files Demo.w0 /\
   state_file Demo.failed_video = state_file Demo.ready_video /\
   state_file Demo.failed_video = state_file Demo.w0) /\
  (processed_files Demo.w0 !! Demo.clip = None /\
   wait_for_download Demo.env_no_model Demo.clip 900 5 Demo.w0
     = (Demo.ready_clip, Returns true) /\
   transcribe_file Demo.env_no_model Demo.clip Demo.w0
     = (Demo.failed_clip, Raises (TranscriptionError "model failure")) /\
   processed_files Demo.failed_clip = processed_files Demo.w0 /\
   state_file Demo.failed_clip = state_file Demo.ready_clip).
Proof.
  assert (Hv0 : processed_files Demo.w0 !! Demo.video = None)
    by (vm_compute; reflexivity).
  assert (Hv1 : wait_for_download Demo.env_no_ffmpeg Demo.video 900 5 Demo.w0
                = (Demo.ready_video, Returns true)) by (vm_compute; reflexivity).
  assert (Hv2 : extract_audio Demo.env_no_ffmpeg (Path Demo.video)
                  (printed ("Processing: " +:+ Demo.video) Demo.ready_video)
                = (Demo.failed_video, Raises (CalledProcessError 1)))
    by (vm_compute; reflexivity).
  assert (Hc0 : processed_files Demo.w0 !! Demo.clip = None)
    by (vm_compute; reflexivity).
  assert (Hc1 : wait_for_download Demo.env_no_model Demo.clip 900 5 Demo.w0
                = (Demo.ready_clip, Returns true)) by (vm_compute; reflexivity).
  destruct (transcribe_file_failure_propagates Demo.env_no_ffmpeg Demo.video
              Demo.w0 Demo.ready_video Demo.failed_video (CalledProcessError 1)
              Hv0 Hv1 (or_introl Hv2)) as (Hv3 & Hv4 & Hv5 & Hv6 & _).
  specialize (Hv6 (demo_quiet_keeps _)).
  destruct (transcribe_file_failure_propagates Demo.env_no_model Demo.clip
              Demo.w0 Demo.ready_clip Demo.failed_clip
              (TranscriptionError "model failure") Hc0 Hc1) as (Hc3 & Hc4 & Hc5 & _ & _).
  { right. exists (Path Demo.clip), (printed ("Processing: " +:+ Demo.clip) Demo.ready_clip).
    split; [vm_compute; reflexivity|]. split; vm_compute; reflexivity. }
  split; [repeat split; assumption | repeat split; assumption].
Defined.

(** C6.  When the lowercased suffix of the path is [.mp4], [.mkv], [.mov]
    or [.flv], [extract_audio] yields the sibling with the same directory and
    stem and the suffix [.wav]: without running ffmpeg when that file exists,
    and otherwise after running ffmpeg once, raising [CalledProcessError] on a
    nonzero exit status.  For every other suffix it returns its argument and
    changes nothing. *)
Theorem extract_audio_spec (E : Env) (p : PurePath) (w : World) :
  (Str.lower (suffix p) ∈ VIDEO_SUFFIXES ->
   exists audio,
     with_suffix p ".wav" = Returns audio /\
     root audio = root p /\
     parts audio = removelast (parts p) ++ [stem p +:+ ".wav"] /\
     (is_Some (files w !! str audio) -> extract_audio E p w = (w, Returns audio)) /\
     (forall out returncode,
        files w !! str audio = None ->
        ffmpeg E (str p) (str audio) (files w) = (out, returncode) ->
        extract_audio E p w =
          (ran_ffmpeg (str p) (str audio) out w,
           if returncode =? 0 then Returns audio
           else Raises (CalledProcessError returncode)))) /\
  (Str.lower (suffix p) ∉ VIDEO_SUFFIXES -> extract_audio E p w = (w, Returns p)).
Proof.
  split; [|apply extract_audio_other].
  intros Hv.
  destruct (with_suffix_total p ".wav") as [audio Ha];
    [by apply video_suffix_name | by left |].
  destruct (with_suffix_returns _ _ _ Ha) as (Hroot & Hparts & _ & _).
  exists audio. repeat split; try done.
  - by apply extract_audio_present.
  - intros out returncode. by apply extract_audio_absent.
Qed.

Lemma extract_audio_spec_witness :
  Str.lower (suffix (Path Demo.video)) ∈ VIDEO_SUFFIXES /\
  (exists audio,
     with_suffix (Path Demo.video) ".wav" = Returns audio /\
     str audio = "media/video.wav" /\
     extract_audio Demo.env (Path Demo.video) Demo.after_video
       = (Demo.after_video, Returns audio) /\
     extract_audio Demo.env (Path Demo.video) Demo.w0
       = (ran_ffmpeg "media/video.mp4" "media/video.wav" (Some "RIFFmp4 frames") Demo.w0,
          Returns audio)) /\
  (Str.lower (suffix (Path Demo.clip)) ∉ VIDEO_SUFFIXES) /\
  extract_audio Demo.env (Path Demo.clip) Demo.w0 = (Demo.w0, Returns (Path Demo.clip)).
Proof.
  assert (Hv : Str.lower (suffix (Path Demo.video)) ∈ VIDEO_SUFFIXES)
    by (apply (bool_decide_unpack _); vm_compute; exact I).
  assert (Hc : Str.lower (suffix (Path Demo.clip)) ∉ VIDEO_SUFFIXES)
    by (apply (proj1 (bool_decide_eq_false _)); vm_compute; reflexivity).
  destruct (extract_audio_spec Demo.env (Path Demo.video) Demo.after_video)
    as [Hpresent _].
  destruct (extract_audio_spec Demo.env (Path Demo.video) Demo.w0) as [Habsent _].
  destruct (extract_audio_spec Demo.env (Path Demo.clip) Demo.w0) as [_ Hother].
  destruct (Hpresent Hv) as (audio & Ha & _ & _ & Hskip & _).
  destruct (Habsent Hv) as (audio' & Ha' & _ & _ & _ & Hrun).
  rewrite Ha in Ha'. injection Ha' as <-.
  assert (Hs : str audio = "media/video.wav").
  { vm_compute in Ha. injection Ha as <-. vm_compute. reflexivity. }
  split; [exact Hv|]. split; [|split; [exact Hc | exact (Hother Hc)]].
  exists audio. split; [exact Ha|]. split; [exact Hs|]. split.
  - apply Hskip. rewrite Hs. vm_compute. eexists. reflexivity.
  - rewrite (Hrun (Some "RIFFmp4 frames") 0).
    + rewrite Hs. vm_compute. reflexivity.
    + rewrite Hs. vm_compute. reflexivity.
    + rewrite Hs. vm_compute. reflexivity.
Defined.

(** C7.  With an ffmpeg that leaves its output whenever it exits with status
    0, two calls of [extract_audio] in a row on the same path run ffmpeg at
    most once: when the first call returns the audio path, the second returns
    the same path and leaves the world as the first call left it. *)
Theorem extract_audio_twice_runs_ffmpeg_once
    (E : Env) (p : PurePath) (w w' : World) (r : Outcome PurePath) :
  ffmpeg_produces_output E ->
  bind (extract_audio E p) (fun _ => extract_audio E p) w = (w', r) ->
  (exists delta, extends w w' delta /\ (count is_run delta <= 1)%nat) /\
  (forall w1 audio,
     extract_audio E p w = (w1, Returns audio) ->
     extract_audio E p w1 = (w1, Returns audio) /\ w' = w1 /\ r = Returns audio).
Proof.
  intros Hcontract Hrun. unfold bind in Hrun.
  destruct (extract_audio E p w) as [w1 r1] eqn:Hfirst.
  assert (Hnil : forall v, extends v v []) by (intros v; unfold extends; by rewrite app_nil_r).
  pose proof Hfirst as Hcases. apply extract_audio_cases in Hcases.
  destruct Hcases as [Hv|audio Hv Ha Hex|audio out Hv Ha Hex Hf|audio out code Hv Ha Hex Hf Hc].
  - rewrite Hfirst in Hrun. injection Hrun as <- <-. split.
    + exists []. split; [done | unfold count; simpl; lia].
    + intros w1 a [= <- <-]. done.
  - rewrite Hfirst in Hrun. injection Hrun as <- <-. split.
    + exists []. split; [done | unfold count; simpl; lia].
    + intros w1 a [= <- <-]. done.
  - destruct (Hcontract _ _ _ _ Hf) as [data ->].
    assert (Hsecond : extract_audio E p (ran_ffmpeg (str p) (str audio) (Some data) w)
                      = (ran_ffmpeg (str p) (str audio) (Some data) w, Returns audio)).
    { apply extract_audio_present; [done | done |]. simpl. by rewrite lookup_insert_eq. }
    rewrite Hsecond in Hrun. injection Hrun as <- <-. split.
    + eexists. split; [reflexivity | unfold count; simpl; lia].
    + intros w1 a [= <- <-]. done.
  - injection Hrun as <- <-. split.
    + eexists. split; [reflexivity | unfold count; simpl; lia].
    + intros w1 a [=].
Qed.

Lemma extract_audio_twice_runs_ffmpeg_once_witness :
  ffmpeg_produces_output Demo.env /\
  (exists delta, extends Demo.w0 Demo.twice.1 delta /\ (count is_run delta <= 1)%nat) /\
  (forall w1 audio,
     extract_audio Demo.env (Path Demo.video) Demo.w0 = (w1, Returns audio) ->
     extract_audio Demo.env (Path Demo.video) w1 = (w1, Returns audio) /\
     Demo.twice.1 = w1 /\ Demo.twice.2 = Returns audio).
Proof.
  split; [exact demo_ffmpeg_contract|].
  exact (extract_audio_twice_runs_ffmpeg_once Demo.env (Path Demo.video) Demo.w0
           Demo.twice.1 Demo.twice.2 demo_ffmpeg_contract
           (surjective_pairing Demo.twice)).
Defined.

(** C8.  When [transcribe_file] returns with the path recorded, the text the
    model produced is the whole content of the [.txt] sibling of the input
    path (same root, same directory, the stem of the input followed by
    [.txt]), written once with the encoding [utf-8] whatever the file held
    before, under the key by which the file system knows that path, and the
    dictionary maps the input path to the name of that file. *)
Theorem transcript_written_beside_source
    (E : Env) (file_path : string) (w w' : World) :
  processed_files w !! file_path = None ->
  transcribe_file E file_path w = (w', Returns tt) ->
  is_Some (processed_files w' !! file_path) ->
  exists text_file text audio w2,
    with_suffix (Path file_path) ".txt" = Returns text_file /\
    root text_file = root (Path file_path) /\
    parts text_file =
      removelast (parts (Path file_path)) ++ [stem (Path file_path) +:+ ".txt"] /\
    name text_file = stem (Path file_path) +:+ ".txt" /\
    whisper E (str audio) (files w2) = inl text /\
    files w' !! str text_file = Some text /\
    fs_key (str text_file) = str text_file /\
    processed_files w' !! file_path = Some (name text_file) /\
    exists pre post, extends w w' (pre ++ EWrite (str text_file) "utf-8" text :: post) /\
      count is_write pre = 0%nat /\ count is_write post = 0%nat.
Proof.
  intros Hk Hrun Hrec.
  destruct (run_recorded E file_path w w' Hk Hrun Hrec)
    as (w1 & w2 & audio & text & tf & Hw & Hx & Ht & Hs & Hw1 & Hw2 & ->).
  destruct (ready_prefix E file_path w w1 w2 _ Hw Hx) as (Hp & _ & pre & Hpre & Hq).
  destruct (with_suffix_returns _ _ _ Hs) as (Hroot & Hparts & Hname & _).
  exists tf, text, audio, w2. repeat split; try done; simpl.
  - rewrite lookup_insert_ne, lookup_insert_eq; [done|].
    intros Heq. eapply with_suffix_not_state_file; eauto.
  - eapply sibling_key; [|exact Hs]. by right.
  - by rewrite lookup_insert_eq.
  - exists (pre ++ [ETranscribe (str audio)]),
      [EDump PROCESSED_FILES (<[file_path := name tf]> (processed_files w2));
       EPrint ("Saved transcription: " +:+ str tf)].
    split; [unfold extends in *; simpl; by rewrite Hpre, <- !app_assoc|].
    split; [|done]. apply prelude_no_write.
    apply Forall_app. split; [done | by repeat constructor].
Qed.

Lemma transcript_written_beside_source_witness :
  processed_files Demo.w0 !! Demo.video = None /\
  transcribe_file Demo.env Demo.video Demo.w0 = (Demo.after_video, Returns tt) /\
  is_Some (processed_files Demo.after_video !! Demo.video) /\
  exists text_file text audio w2,
    with_suffix (Path Demo.video) ".txt" = Returns text_file /\
    root text_file = root (Path Demo.video) /\
    parts text_file =
      removelast (parts (Path Demo.video)) ++ [stem (Path Demo.video) +:+ ".txt"] /\
    name text_file = stem (Path Demo.video) +:+ ".txt" /\
    whisper Demo.env (str audio) (files w2) = inl text /\
    files Demo.after_video !! str text_file = Some text /\
    fs_key (str text_file) = str text_file /\
    processed_files Demo.after_video !! Demo.video = Some (name text_file) /\
    exists pre post,
      extends Demo.w0 Demo.after_video
        (pre ++ EWrite (str text_file) "utf-8" text :: post) /\
      count is_write pre = 0%nat /\ count is_write post = 0%nat.
Proof.
  assert (H0 : processed_files Demo.w0 !! Demo.video = None)
    by (vm_compute; reflexivity).
  assert (H1 : transcribe_file Demo.env Demo.video Demo.w0 = (Demo.after_video, Returns tt))
    by (vm_compute; reflexivity).
  assert (H2 : is_Some (processed_files Demo.after_video !! Demo.video))
    by (vm_compute; eexists; reflexivity).
  split; [exact H0|]. split; [exact H1|]. split; [exact H2|].
  exact (transcript_written_beside_source Demo.env Demo.video Demo.w0
           Demo.after_video H0 H1 H2).
Defined.

(** C9.  A file whose last dot segment, lowercased, is not a supported format
    never reaches the orchestrator.  The watcher leaves the world unchanged on
    a directory event and on the event of such a file; the scan of a listing
    is the scan of the listing without that file, and the scan of a directory
    holding only that file changes nothing.  For a name that has a suffix in
    pathlib's sense the segment tested is that suffix without its dot. *)
Theorem unsupported_files_ignored (E : Env) (w : World) :
  (forall event,
     is_directory event = true \/
     last_dot_segment (os_path_basename (src_path event)) ∉ SUPPORTED_FORMATS ->
     on_created E event w = (w, Returns tt)) /\
  (forall before root dirs names1 file names2 after,
     last_dot_segment file ∉ SUPPORTED_FORMATS ->
     scan_walk E (before ++ (root, dirs, names1 ++ file :: names2) :: after) w =
     scan_walk E (before ++ (root, dirs, names1 ++ names2) :: after) w) /\
  (forall root dirs file,
     last_dot_segment file ∉ SUPPORTED_FORMATS ->
     scan_walk E [(root, dirs, [file])] w = (w, Returns tt)) /\
  (forall root dirs p ext,
     suffix p = String "." ext -> Str.lower ext ∉ SUPPORTED_FORMATS ->
     scan_walk E [(root, dirs, [name p])] w = (w, Returns tt)).
Proof.
  assert (Honly : forall root dirs file,
            last_dot_segment file ∉ SUPPORTED_FORMATS ->
            scan_walk E [(root, dirs, [file])] w = (w, Returns tt)).
  { intros root dirs file Hext. unfold scan_walk. simpl.
    rewrite bool_decide_eq_false_2 by done. done. }
  split; [|split; [|split; [exact Honly|]]];
    [| |intros root dirs p ext Hs Hext; apply Honly;
        by rewrite (suffix_last_dot_segment p ext Hs)].
  - intros [dir src] [Hd | Hext]; simpl in *; unfold on_created; simpl.
    + by rewrite Hd.
    + destruct dir; [done|].
      destruct (decide (last_dot_segment src ∈ SUPPORTED_FORMATS)) as [Hin|Hout].
      * exfalso. apply Hext. by rewrite watcher_accepts_basename.
      * by rewrite bool_decide_eq_false_2.
  - intros before root dirs names1 file names2 after Hext. unfold scan_walk.
    rewrite !for_each_app. unfold bind at 1. symmetry. unfold bind at 1. symmetry.
    destruct (for_each before _ w) as [w' [[]|e|]]; [|done|done].
    simpl. unfold bind at 1. symmetry. unfold bind at 1. symmetry.
    rewrite for_each_skip; [done|].
    intros v. by rewrite bool_decide_eq_false_2.
Qed.

Lemma unsupported_files_ignored_witness :
  (last_dot_segment (os_path_basename "./media/notes.pdf") ∉ SUPPORTED_FORMATS) /\
  on_created Demo.env (mkEvent false "./media/notes.pdf") Demo.w0 = (Demo.w0, Returns tt) /\
  on_created Demo.env (mkEvent true "./media/clips.mp3") Demo.w0 = (Demo.w0, Returns tt) /\
  scan_walk Demo.env [("./media", [], ["clip.mp3"; "notes.pdf"])] Demo.w0 =
    scan_walk Demo.env [("./media", [], ["clip.mp3"])] Demo.w0 /\
  scan_walk Demo.env [("./media", [], ["notes.pdf"])] Demo.w0 = (Demo.w0, Returns tt) /\
  suffix (Path "./media/notes.pdf") = ".pdf" /\
  scan_walk Demo.env [("./media", [], [name (Path "./media/notes.pdf")])] Demo.w0 =
    (Demo.w0, Returns tt).
Proof.
  assert (Hp : last_dot_segment (os_path_basename "./media/notes.pdf") ∉ SUPPORTED_FORMATS)
    by (apply (proj1 (bool_decide_eq_false _)); vm_compute; reflexivity).
  assert (Hn : last_dot_segment "notes.pdf" ∉ SUPPORTED_FORMATS)
    by (apply (proj1 (bool_decide_eq_false _)); vm_compute; reflexivity).
  assert (Hx : Str.lower "pdf" ∉ SUPPORTED_FORMATS)
    by (apply (proj1 (bool_decide_eq_false _)); vm_compute; reflexivity).
  destruct (unsupported_files_ignored Demo.env Demo.w0)
    as (Hwatch & Hscan & Honly & Hsuffix).
  split; [exact Hp|]. split; [|split; [|split; [|split; [|split]]]].
  - apply (Hwatch (mkEvent false "./media/notes.pdf")). right. exact Hp.
  - apply (Hwatch (mkEvent true "./media/clips.mp3")). left. reflexivity.
  - exact (Hscan [] "./media" [] ["clip.mp3"] "notes.pdf" [] [] Hn).
  - exact (Honly "./media" [] "notes.pdf" Hn).
  - reflexivity.
  - exact (Hsuffix "./media" [] (Path "./media/notes.pdf") "pdf" eq_refl Hx).
Defined.

(** C10, as amended.  The scanner tests the text after the last dot of the
    file name, the whole name when it has no dot, lowercased; so it hands a
    dotless file named like a supported format to the orchestrator.  The
    watcher applies the same test to the whole path of the event, not to the
    file name; so it ignores every dotless file that lies in a directory. *)
Theorem dotless_names_scanner_only (E : Env) (w : World) :
  (forall file, Str.contains "." file = false ->
     last_dot_segment file = Str.lower file) /\
  (forall root dirs file,
     Str.contains "." file = false -> Str.lower file ∈ SUPPORTED_FORMATS ->
     scan_walk E [(root, dirs, [file])] w =
       transcribe_file E (os_path_join root file) w) /\
  (forall event,
     is_directory event = false ->
     on_created E event w =
       if bool_decide (Str.lower (Str.last (Str.split "." (src_path event)))
                       ∈ SUPPORTED_FORMATS)
       then transcribe_file E (src_path event) w else (w, Returns tt)) /\
  (forall dir file,
     Str.contains "." file = false ->
     on_created E (mkEvent false (dir +:+ "/" +:+ file)) w = (w, Returns tt)).
Proof.
  split; [|split; [|split]].
  - intros file Hf. unfold last_dot_segment. by rewrite last_split_no_sep.
  - intros root dirs file Hf Hin. unfold scan_walk. simpl.
    unfold last_dot_segment. rewrite last_split_no_sep by done.
    rewrite bool_decide_eq_true_2 by done.
    rewrite bind_ret_unit. apply bind_ret_unit.
  - intros [dir src] Hd. simpl in *. subst. unfold on_created. simpl.
    unfold last_dot_segment. by destruct (bool_decide _).
  - intros dir file Hf. unfold on_created. simpl.
    rewrite bool_decide_eq_false_2; [done|]. by apply watcher_rejects_dotless.
Qed.

(** C10 as stated fails for the watcher: the scanner hands a file named
    [mp3] in the watched directory to the orchestrator, the watcher does
    nothing on the event of the same file. *)
Lemma watcher_ignores_file_named_like_format :
  last_dot_segment (os_path_basename "./media/mp3") ∈ SUPPORTED_FORMATS /\
  scan_walk Demo.env [("./media", [], ["mp3"])] Demo.w0 =
    transcribe_file Demo.env "./media/mp3" Demo.w0 /\
  on_created Demo.env (mkEvent false "./media/mp3") Demo.w0 = (Demo.w0, Returns tt) /\
  transcribe_file Demo.env "./media/mp3" Demo.w0 <> (Demo.w0, Returns tt).
Proof.
  split; [apply (bool_decide_unpack _); vm_compute; exact I|].
  split; [vm_compute; reflexivity|]. split; [vm_compute; reflexivity|].
  intros H. apply (f_equal (fun x => List.length (trace x.1))) in H.
  vm_compute in H. discriminate.
Qed.

Lemma dotless_names_scanner_only_witness :
  Str.contains "." "mp3" = false /\
  Str.lower "mp3" ∈ SUPPORTED_FORMATS /\
  last_dot_segment "mp3" = "mp3" /\
  scan_walk Demo.env [("./media", [], ["mp3"])] Demo.w0 =
    transcribe_file Demo.env (os_path_join "./media" "mp3") Demo.w0 /\
  on_created Demo.env (mkEvent false "./media/mp3") Demo.w0 =
    (if bool_decide (Str.lower (Str.last (Str.split "." "./media/mp3"))
                     ∈ SUPPORTED_FORMATS)
     then transcribe_file Demo.env "./media/mp3" Demo.w0 else (Demo.w0, Returns tt)) /\
  on_created Demo.env (mkEvent false ("./media" +:+ "/" +:+ "mp3")) Demo.w0 =
    (Demo.w0, Returns tt).
Proof.
  assert (Hd : Str.contains "." "mp3" = false) by reflexivity.
  assert (Hs : Str.lower "mp3" ∈ SUPPORTED_FORMATS)
    by (apply (bool_decide_unpack _); vm_compute; exact I).
  destruct (dotless_names_scanner_only Demo.env Demo.w0)
    as (Hseg & Hscan & Hwatch & Hignored).
  split; [exact Hd|]. split; [exact Hs|]. split; [exact (Hseg "mp3" Hd)|].
  split; [exact (Hscan "./media" [] "mp3" Hd Hs)|].
  split; [exact (Hwatch (mkEvent false "./media/mp3") eq_refl)|].
  exact (Hignored "./media" "mp3" Hd).
Defined.

(** * Further properties *)

(** ** Readiness detector *)

Section ReadinessMore.
Variable E : Env.

Lemma wait_for_download_file_vanishes
    (file_path : string) (timeout check_interval : Z) (w : World) (n : nat) :
  0 < timeout -> 0 <= check_interval ->
  size_of file_path (files w) = Some n ->
  size_of file_path (external E (clock w) check_interval (files w)) = None ->
  wait_for_download E file_path timeout check_interval w =
    (slept E check_interval w, Raises FileNotFoundError).
Proof.
  intros Ht Hi H1 H2. unfold wait_for_download, bind at 1, time_time, poll_budget.
  rewrite wait_loop_step by lia. rewrite H1. simpl. by rewrite H2.
Qed.

Lemma count_cons_sleep d (delta : list Event) :
  count is_sleep (ESleep d :: delta) = S (count is_sleep delta).
Proof. reflexivity. Qed.

(** The loop from any point: it ends, on time, and the clock counts the sleeps. *)
Lemma wait_loop_bounded fuel file_path timeout check_interval start_time w w' r :
  0 < check_interval ->
  timeout - (clock w - start_time) <= Z.of_nat fuel * check_interval ->
  clock w - start_time < timeout + check_interval ->
  wait_loop E fuel file_path timeout check_interval start_time w = (w', r) ->
  r <> OutOfFuel /\ clock w' - start_time < timeout + check_interval /\
  (r = Returns false -> timeout <= clock w' - start_time) /\
  exists delta, extends w w' delta /\
    clock w' - clock w = check_interval * Z.of_nat (count is_sleep delta).
Proof.
  intros Hi. revert w w' r. induction fuel as [|fuel IH]; intros w w' r Hf Hlt.
  - rewrite wait_loop_timed_out by lia. intros [= <- <-]. simpl.
    repeat split; try done; try lia.
    eexists. split; [reflexivity|]. unfold count. simpl. lia.
  - destruct (Z.lt_ge_cases (clock w - start_time) timeout) as [Ht|Ht].
    2:{ rewrite wait_loop_timed_out by lia. intros [= <- <-]. simpl.
        repeat split; try done; try lia.
        eexists. split; [reflexivity|]. unfold count. simpl. lia. }
    rewrite wait_loop_step by lia.
    assert (Hrec : forall r0, 
      wait_loop E fuel file_path timeout check_interval start_time
        (slept E check_interval w) = (w', r0) ->
      r0 <> OutOfFuel /\ clock w' - start_time < timeout + check_interval /\
      (r0 = Returns false -> timeout <= clock w' - start_time) /\
      exists delta, extends w w' delta /\
        clock w' - clock w = check_interval * Z.of_nat (count is_sleep delta)).
    { intros r0 Hrun. apply IH in Hrun as (Hr & Hc & Hfalse & delta & Hd & Hn);
        [|simpl; lia|simpl; lia].
      repeat split; try done.
      exists (ESleep check_interval :: delta). split.
      - unfold extends in *. simpl in *. by rewrite Hd, <- app_assoc.
      - rewrite count_cons_sleep. simpl in Hn. lia. }
    assert (Hone : extends w (slept E check_interval w) [ESleep check_interval]) by done.
    destruct (size_of file_path (files w)) as [n|]; [|apply Hrec].
    destruct (size_of file_path (files (slept E check_interval w))) as [n'|].
    + destruct (n' =? n)%nat; [|apply Hrec].
      intros [= <- <-]. simpl. repeat split; try done; try lia.
      exists [ESleep check_interval; EPrint (finished_message file_path)].
      split; [unfold extends; simpl; by rewrite <- app_assoc|].
      unfold count. simpl. lia.
    + intros [= <- <-]. simpl. repeat split; try done; try lia.
      exists [ESleep check_interval]. split; [done|]. unfold count. simpl. lia.
Qed.

Lemma wait_for_download_time
    (file_path : string) (timeout check_interval : Z) (w w' : World) (r : Outcome bool) :
  0 <= timeout -> 0 < check_interval ->
  wait_for_download E file_path timeout check_interval w = (w', r) ->
  r <> OutOfFuel /\
  0 <= clock w' - clock w < timeout + check_interval /\
  (r = Returns false -> timeout <= clock w' - clock w) /\
  processed_files w' = processed_files w /\
  exists delta, extends w w' delta /\
    Forall (fun e => is_sleep e || is_print e = true) delta /\
    clock w' - clock w = check_interval * Z.of_nat (count is_sleep delta).
Proof.
  intros Ht Hi Hrun.
  destruct (wait_for_download_effect E _ _ _ _ _ _ Hrun) as (Hp & delta' & Hd' & Hq).
  unfold wait_for_download, bind at 1, time_time in Hrun.
  apply wait_loop_bounded in Hrun as (Hr & Hc & Hfalse & delta & Hd & Hn);
    [|done| |lia].
  2:{ pose proof (poll_budget_enough timeout check_interval Hi). lia. }
  assert (delta' = delta) as ->.
  { unfold extends in *. rewrite Hd in Hd'. by apply app_inv_head in Hd'. }
  repeat split; try done; try lia.
  exists delta. done.
Qed.

(** True is reported only on two equal samples one sleep apart. *)
Lemma wait_loop_true fuel file_path timeout check_interval start_time w w' :
  0 <= check_interval ->
  wait_loop E fuel file_path timeout check_interval start_time w = (w', Returns true) ->
  exists v n,
    w' = printed (finished_message file_path) (slept E check_interval v) /\
    size_of file_path (files v) = Some n /\
    size_of file_path (files (slept E check_interval v)) = Some n.
Proof.
  intros Hi. revert w w'. induction fuel as [|fuel IH]; intros w w'.
  - destruct (Z.lt_ge_cases (clock w - start_time) timeout) as [Ht|Ht].
    + simpl. unfold bind, time_time, lift. apply Z.ltb_lt in Ht. by rewrite Ht.
    + by rewrite wait_loop_timed_out by lia.
  - destruct (Z.lt_ge_cases (clock w - start_time) timeout) as [Ht|Ht].
    2:{ by rewrite wait_loop_timed_out by lia. }
    rewrite wait_loop_step by done.
    destruct (size_of file_path (files w)) as [n|] eqn:H1; [|apply IH].
    destruct (size_of file_path (files (slept E check_interval w))) as [n'|] eqn:H2; [|done].
    destruct (n' =? n)%nat eqn:Hn; [|apply IH].
    apply Nat.eqb_eq in Hn as ->. intros [= <-]. by exists w, n.
Qed.

(** A path that is not there and never appears: the loop sleeps until the
    timeout has passed. *)
Lemma wait_loop_never_there fuel file_path timeout check_interval start_time w :
  0 < check_interval ->
  stays_absent E file_path check_interval ->
  files w !! fs_key file_path = None ->
  timeout - (clock w - start_time) <= Z.of_nat fuel * check_interval ->
  exists w', wait_loop E fuel file_path timeout check_interval start_time w
             = (w', Returns false) /\
    files w' !! fs_key file_path = None.
Proof.
  intros Hi Hstay. revert w. induction fuel as [|fuel IH]; intros w Hnone Hf.
  - rewrite wait_loop_timed_out by lia. eexists. split; [done|]. exact Hnone.
  - destruct (Z.lt_ge_cases (clock w - start_time) timeout) as [Ht|Ht].
    2:{ rewrite wait_loop_timed_out by lia. eexists. split; [done|]. exact Hnone. }
    rewrite wait_loop_absent by (done || lia).
    apply IH; [simpl; by apply Hstay | simpl; lia].
Qed.

End ReadinessMore.

(** ** Processed-set store and orchestrator *)

Section OrchestratorMore.
Variable E : Env.

Lemma load_processed_files_reads w text :
  state_file w = Some text -> readable E (fs_key PROCESSED_FILES) = true ->
  load_processed_files E w =
    (w, match json_loads E text with
        | Some v => Returns v
        | None => Raises JSONDecodeError
        end).
Proof.
  unfold state_file. intros Hf Hr.
  unfold load_processed_files, bind, os_path_exists, read_text.
  rewrite Hf. rewrite bool_decide_eq_true_2 by eauto. rewrite Hf, Hr.
  by destruct (json_loads E text).
Qed.

(** What a run does to the dictionary: nothing, or one new entry for the path. *)
Lemma transcribe_file_dict file_path w w' r :
  transcribe_file E file_path w = (w', r) ->
  processed_files w' = processed_files w \/
  (processed_files w !! file_path = None /\
   exists text_file,
     with_suffix (Path file_path) ".txt" = Returns text_file /\
     processed_files w' = <[file_path := name text_file]> (processed_files w)).
Proof.
  intros Hrun. apply transcribe_file_cases in Hrun.
  destruct Hrun as [Hk|w1 Hk Hw|w1 e Hk Hw|w1 w2 e Hk Hw Hx
    |w1 w2 audio e Hk Hw Hx Ht|w1 w2 audio text e Hk Hw Hx Ht Hs
    |w1 w2 audio text tf Hk Hw Hx Ht Hs Hw1
    |w1 w2 audio text tf Hk Hw Hx Ht Hs Hw1 Hw2
    |w1 w2 audio text tf Hk Hw Hx Ht Hs Hw1 Hw2].
  - by left.
  - left. by apply wait_for_download_effect in Hw as [Hp _].
  - left. by apply wait_for_download_effect in Hw as [Hp _].
  - left. by destruct (ready_prefix E file_path w w1 w2 _ Hw Hx) as (Hp & _).
  - left. by destruct (ready_prefix E file_path w w1 w2 _ Hw Hx) as (Hp & _).
  - left. by destruct (ready_prefix E file_path w w1 w2 _ Hw Hx) as (Hp & _).
  - left. by destruct (ready_prefix E file_path w w1 w2 _ Hw Hx) as (Hp & _).
  - right. destruct (ready_prefix E file_path w w1 w2 _ Hw Hx) as (Hp & _).
    split; [done|]. exists tf. split; [done|]. simpl. by rewrite Hp.
  - right. destruct (ready_prefix E file_path w w1 w2 _ Hw Hx) as (Hp & _).
    split; [done|]. exists tf. split; [done|]. simpl. by rewrite Hp.
Qed.

Lemma transcribe_file_grows file_path w w' r :
  transcribe_file E file_path w = (w', r) ->
  processed_files w ⊆ processed_files w'.
Proof.
  intros Hrun. destruct (transcribe_file_dict _ _ _ _ Hrun) as [-> | (Hk & tf & _ & ->)].
  - done.
  - by apply insert_subseteq.
Qed.

Lemma for_each_invariant {A} (R : World -> World -> Prop) (l : list A) body w w' r :
  (forall v, R v v) -> (forall a b c, R a b -> R b c -> R a c) ->
  (forall x v v' r', body x v = (v', r') -> R v v') ->
  for_each l body w = (w', r) -> R w w'.
Proof.
  intros Hrefl Htrans Hbody. revert w. induction l as [|x l IH]; intros w; simpl.
  - by intros [= <- <-].
  - unfold bind. destruct (body x w) as [v [[]|e|]] eqn:Hx.
    + intros Hrun. eapply Htrans; [by eapply Hbody | by apply IH].
    + intros [= <- <-]. by eapply Hbody.
    + intros [= <- <-]. by eapply Hbody.
Qed.

(** A run that records its path: the dictionary, the files and the trace at
    the end. *)
Lemma run_recorded_end file_path w w' :
  processed_files w !! file_path = None ->
  transcribe_file E file_path w = (w', Returns tt) ->
  is_Some (processed_files w' !! file_path) ->
  exists text_file text pre,
    with_suffix (Path file_path) ".txt" = Returns text_file /\
    processed_files w' = <[file_path := name text_file]> (processed_files w) /\
    state_file w' = Some (json_dumps E (processed_files w')) /\
    files w' !! str text_file = Some text /\
    Forall (fun e => is_prelude e = true) pre /\
    extends w w'
      (pre ++ [EWrite (str text_file) "utf-8" text;
               EDump PROCESSED_FILES (processed_files w');
               EPrint ("Saved transcription: " +:+ str text_file)]).
Proof.
  intros Hk Hrun Hrec.
  destruct (run_recorded E file_path w w' Hk Hrun Hrec)
    as (w1 & w2 & audio & text & tf & Hw & Hx & Ht & Hs & Hw1 & Hw2 & ->).
  destruct (ready_prefix E file_path w w1 w2 _ Hw Hx) as (Hp & _ & pre & Hpre & Hq).
  exists tf, text, (pre ++ [ETranscribe (str audio)]).
  split; [done|]. cbn [processed_files files printed saved recorded written transcribed].
  split; [by rewrite Hp|]. split; [unfold state_file; cbn [files printed saved]; apply lookup_insert_eq|].
  split.
  { rewrite lookup_insert_ne, lookup_insert_eq; [done|].
    intros Heq. eapply with_suffix_not_state_file; eauto. }
  split; [apply Forall_app; split; [done | by repeat constructor]|].
  unfold extends in *. cbn [trace printed saved recorded written transcribed processed_files].
  by rewrite Hpre, <- !app_assoc.
Qed.

Lemma elem_of_sleep_print (delta : list Event) e :
  Forall (fun e => is_sleep e || is_print e = true) delta -> e ∈ delta ->
  is_sleep e || is_print e = true.
Proof. intros Hall He. by eapply Forall_forall in Hall. Qed.

End OrchestratorMore.

(** ** Names with the suffix [.wav] *)

Section SiblingFacts.

#[local] Arguments append !_ _ : simpl nomatch.


Lemma last_split_app_contains c s t :
  Str.contains c t = true ->
  Str.last (Str.split c (s +:+ t)) = Str.last (Str.split c t).
Proof.
  intros Ht. induction s as [|a s IH]; [done|].
  change (String a s +:+ t) with (String a (s +:+ t)).
  by rewrite last_split_cons, contains_app, Ht, !orb_true_r.
Qed.






End SiblingFacts.

(** ** Directory scanner *)

Section DiscoveryMore.
Variable E : Env.

Lemma for_each_names root (names : list string) w :
  for_each names (fun file =>
    if bool_decide (last_dot_segment file ∈ SUPPORTED_FORMATS)
    then transcribe_file E (os_path_join root file)
    else ret tt) w =
  for_each
    (List.map (os_path_join root)
       (List.filter (fun file => bool_decide (last_dot_segment file ∈ SUPPORTED_FORMATS))
          names))
    (transcribe_file E) w.
Proof.
  revert w. induction names as [|file names IH]; intros w; [done|]. simpl.
  destruct (bool_decide (last_dot_segment file ∈ SUPPORTED_FORMATS)); simpl.
  - unfold bind. destruct (transcribe_file E (os_path_join root file) w) as [w' [[]|e|]];
      [apply IH | done | done].
  - unfold bind. simpl. apply IH.
Qed.

Lemma scan_walk_sequence walk w :
  scan_walk E walk w = for_each (supported_paths walk) (transcribe_file E) w.
Proof.
  unfold scan_walk. revert w.
  induction walk as [|[[root dirs] names] walk IH]; intros w; [done|].
  simpl. rewrite for_each_app. unfold bind.
  rewrite for_each_names.
  destruct (for_each _ (transcribe_file E) w) as [w' [[]|e|]]; [apply IH | done | done].
Qed.

Lemma for_each_known (paths : list string) w :
  Forall (fun p => is_Some (processed_files w !! p)) paths ->
  for_each paths (transcribe_file E) w =
    (mkWorld (files w) (clock w) (processed_files w)
       (trace w ++ List.map (fun p => EPrint ("Skipping already processed file: " +:+ p)) paths),
     Returns tt).
Proof.
  revert w. induction paths as [|p paths IH]; intros w Hall.
  - simpl. unfold ret. rewrite app_nil_r. by destruct w.
  - apply Forall_cons in Hall as [Hp Hall]. simpl. unfold bind.
    rewrite transcribe_file_known by done.
    rewrite IH by done. simpl. by rewrite <- app_assoc.
Qed.

End DiscoveryMore.

Lemma last_dot_segment_join root file :
  Str.contains "." file = true ->
  last_dot_segment (os_path_join root file) = last_dot_segment file.
Proof.
  intros Hf. unfold os_path_join, last_dot_segment.
  destruct (Str.startswith "/" file); [done|].
  destruct (_ || _).
  - by rewrite last_split_app_contains.
  - rewrite last_split_app_contains; [|by rewrite contains_app, Hf, orb_true_r].
    by rewrite (last_split_app_contains "." "/" file).
Qed.

(** ** Properties of the code beyond the claims *)

(** X1.  What [save_processed_files] writes, [load_processed_files] reads
    back: when the state file may be written and read and the decoder inverts
    the encoder on [d], a save of [d] followed by a load returns [d]. *)
Theorem save_then_load (E : Env) (d : gmap string string) (w : World) :
  writable E (fs_key PROCESSED_FILES) = true ->
  readable E (fs_key PROCESSED_FILES) = true ->
  json_round_trip E d ->
  exists w1,
    save_processed_files E d w = (w1, Returns tt) /\
    load_processed_files E w1 = (w1, Returns (PyDict d)).
Proof.
  intros Hw Hr Hrt. unfold save_processed_files. rewrite Hw.
  eexists. split; [reflexivity|].
  erewrite load_processed_files_reads; [|unfold state_file; simpl; apply lookup_insert_eq|done].
  by rewrite Hrt.
Qed.

Lemma save_then_load_witness :
  writable Demo.env (fs_key PROCESSED_FILES) = true /\
  readable Demo.env (fs_key PROCESSED_FILES) = true /\
  json_round_trip Demo.env Cases.one_entry /\
  exists w1,
    save_processed_files Demo.env Cases.one_entry Demo.w0 = (w1, Returns tt) /\
    load_processed_files Demo.env w1 = (w1, Returns (PyDict Cases.one_entry)).
Proof.
  assert (Hw : writable Demo.env (fs_key PROCESSED_FILES) = true) by reflexivity.
  assert (Hr : readable Demo.env (fs_key PROCESSED_FILES) = true) by reflexivity.
  assert (Hrt : json_round_trip Demo.env Cases.one_entry) by (vm_compute; reflexivity).
  split; [exact Hw|]. split; [exact Hr|]. split; [exact Hrt|].
  exact (save_then_load Demo.env Cases.one_entry Demo.w0 Hw Hr Hrt).
Defined.

(** X2.  [save_processed_files] touches the state file and nothing else: the
    clock, the dictionary and every other file are as before.  It either
    replaces the content of the state file by the dump of its argument, or is
    refused with [PermissionError] and changes nothing.  A save replaces what
    an earlier save wrote. *)
Theorem save_processed_files_frame (E : Env) (d : gmap string string) (w w' : World) (r : Outcome unit) :
  save_processed_files E d w = (w', r) ->
  clock w' = clock w /\ processed_files w' = processed_files w /\
  (forall key, key <> fs_key PROCESSED_FILES -> files w' !! key = files w !! key) /\
  ((r = Returns tt /\ state_file w' = Some (json_dumps E d)) \/
   (r = Raises PermissionError /\ w' = w)) /\
  (forall d0, files (save_processed_files E d (save_processed_files E d0 w).1).1 = files w').
Proof.
  unfold save_processed_files, state_file.
  destruct (writable E (fs_key PROCESSED_FILES)) eqn:Hw; intros [= <- <-];
    cbn [files clock processed_files trace fst].
  - split; [done|]. split; [done|]. split; [|split].
    + intros key Hk. by rewrite lookup_insert_ne.
    + left. split; [done|]. apply lookup_insert_eq.
    + intros d0. by rewrite insert_insert_eq.
  - split; [done|]. split; [done|]. split; [done|]. split; [by right | done].
Qed.

Lemma save_processed_files_frame_witness :
  save_processed_files Demo.env Cases.one_entry Demo.w0 = (Cases.after_save, Returns tt) /\
  clock Cases.after_save = clock Demo.w0 /\
  processed_files Cases.after_save = processed_files Demo.w0 /\
  files Cases.after_save !! "media/clip.mp3" = files Demo.w0 !! "media/clip.mp3" /\
  state_file Cases.after_save = Some (json_dumps Demo.env Cases.one_entry).
Proof.
  assert (H : save_processed_files Demo.env Cases.one_entry Demo.w0
              = (Cases.after_save, Returns tt)) by (vm_compute; reflexivity).
  destruct (save_processed_files_frame Demo.env Cases.one_entry Demo.w0
              Cases.after_save (Returns tt) H) as (Hc & Hp & Hf & Hr & _).
  split; [exact H|]. split; [exact Hc|]. split; [exact Hp|]. split.
  - apply Hf. vm_compute. discriminate.
  - destruct Hr as [[_ Hs] | [Hx _]]; [exact Hs | discriminate Hx].
Defined.

(** X3.  After a call of [transcribe_file] that recorded its path, the
    state file holds the whole dictionary: a load at that point returns
    exactly the dictionary in memory, when the decoder inverts the encoder
    on it. *)
Theorem restart_loads_the_processed_set (E : Env) (file_path : string) (w w' : World) :
  processed_files w !! file_path = None ->
  transcribe_file E file_path w = (w', Returns tt) ->
  is_Some (processed_files w' !! file_path) ->
  readable E (fs_key PROCESSED_FILES) = true ->
  json_round_trip E (processed_files w') ->
  load_processed_files E w' = (w', Returns (PyDict (processed_files w'))).
Proof.
  intros Hk Hrun Hrec Hr Hrt.
  destruct (run_recorded_end E _ _ _ Hk Hrun Hrec) as (_ & _ & _ & _ & _ & Hs & _).
  rewrite (load_processed_files_reads E w' _ Hs Hr). by rewrite Hrt.
Qed.

Lemma restart_loads_the_processed_set_witness :
  transcribe_file Demo.env Demo.clip Demo.w0 = (Demo.after_clip, Returns tt) /\
  json_round_trip Demo.env (processed_files Demo.after_clip) /\
  load_processed_files Demo.env Demo.after_clip =
    (Demo.after_clip, Returns (PyDict (processed_files Demo.after_clip))).
Proof.
  assert (Hk : processed_files Demo.w0 !! Demo.clip = None) by (vm_compute; reflexivity).
  assert (H1 : transcribe_file Demo.env Demo.clip Demo.w0 = (Demo.after_clip, Returns tt))
    by (vm_compute; reflexivity).
  assert (Hr : is_Some (processed_files Demo.after_clip !! Demo.clip))
    by (vm_compute; eexists; reflexivity).
  assert (Hrt : json_round_trip Demo.env (processed_files Demo.after_clip))
    by (vm_compute; reflexivity).
  split; [exact H1|]. split; [exact Hrt|].
  exact (restart_loads_the_processed_set Demo.env Demo.clip Demo.w0 Demo.after_clip
           Hk H1 Hr eq_refl Hrt).
Defined.

(** X4.  With a timeout that is not positive [wait_for_download] reports
    not ready at once, without looking at the file or sleeping.  With a
    positive timeout and a negative interval the first [time.sleep] raises
    [ValueError]. *)
Theorem wait_for_download_degenerate (E : Env)
    (file_path : string) (timeout check_interval : Z) (w : World) :
  (timeout <= 0 ->
   wait_for_download E file_path timeout check_interval w =
     (printed (timeout_message file_path) w, Returns false)) /\
  (0 < timeout -> check_interval < 0 ->
   wait_for_download E file_path timeout check_interval w = (w, Raises ValueError)).
Proof.
  split.
  - intros Ht. unfold wait_for_download, bind at 1, time_time.
    apply wait_loop_timed_out. lia.
  - intros Ht Hi. unfold wait_for_download, bind at 1, time_time, poll_budget.
    simpl. unfold bind at 1, time_time.
    replace (clock w - clock w <? timeout) with true by (symmetry; apply Z.ltb_lt; lia).
    unfold bind at 1, os_path_exists.
    apply Z.ltb_lt in Hi.
    destruct (files w !! fs_key file_path) as [data|] eqn:Hd.
    + rewrite bool_decide_eq_true_2 by eauto. simpl.
      unfold bind at 1, os_path_getsize. rewrite Hd.
      unfold bind at 1, time_sleep. by rewrite Hi.
    + rewrite bool_decide_eq_false_2 by (by intros [? ?]). simpl.
      unfold bind at 1, time_sleep. by rewrite Hi.
Qed.

Lemma wait_for_download_degenerate_witness :
  wait_for_download Demo.env Demo.clip 0 5 Demo.w0 =
    (printed (timeout_message Demo.clip) Demo.w0, Returns false) /\
  wait_for_download Demo.env Demo.clip 900 (-5) Demo.w0 = (Demo.w0, Raises ValueError).
Proof.
  destruct (wait_for_download_degenerate Demo.env Demo.clip 0 5 Demo.w0) as [Hzero _].
  destruct (wait_for_download_degenerate Demo.env Demo.clip 900 (-5) Demo.w0) as [_ Hneg].
  split; [apply Hzero; lia | apply Hneg; lia].
Defined.

(** X5.  A file that exists at the first sample and is gone after the sleep
    makes [wait_for_download] raise [FileNotFoundError]; [transcribe_file]
    does not catch it and ends with that exception, one sleep after it
    started. *)
Theorem file_vanishes_while_polled (E : Env) (file_path : string) (w : World) (n : nat) :
  (forall timeout check_interval,
     0 < timeout -> 0 <= check_interval ->
     size_of file_path (files w) = Some n ->
     size_of file_path (external E (clock w) check_interval (files w)) = None ->
     wait_for_download E file_path timeout check_interval w =
       (slept E check_interval w, Raises FileNotFoundError)) /\
  (processed_files w !! file_path = None ->
   size_of file_path (files w) = Some n ->
   size_of file_path (external E (clock w) 5 (files w)) = None ->
   transcribe_file E file_path w = (slept E 5 w, Raises FileNotFoundError)).
Proof.
  split.
  - intros timeout check_interval. apply wait_for_download_file_vanishes.
  - intros Hk H1 H2. apply transcribe_file_complete. apply Run_wait_raises; [done|].
    by eapply wait_for_download_file_vanishes.
Qed.

Lemma file_vanishes_while_polled_witness :
  processed_files Demo.w0 !! Demo.clip = None /\
  size_of Demo.clip (files Demo.w0) = Some 9%nat /\
  size_of Demo.clip (external Cases.env_vanishing (clock Demo.w0) 5 (files Demo.w0)) = None /\
  wait_for_download Cases.env_vanishing Demo.clip 900 5 Demo.w0 =
    (slept Cases.env_vanishing 5 Demo.w0, Raises FileNotFoundError) /\
  transcribe_file Cases.env_vanishing Demo.clip Demo.w0 =
    (slept Cases.env_vanishing 5 Demo.w0, Raises FileNotFoundError).
Proof.
  assert (H0 : processed_files Demo.w0 !! Demo.clip = None) by (vm_compute; reflexivity).
  assert (H1 : size_of Demo.clip (files Demo.w0) = Some 9%nat) by (vm_compute; reflexivity).
  assert (H2 : size_of Demo.clip
                 (external Cases.env_vanishing (clock Demo.w0) 5 (files Demo.w0)) = None)
    by (vm_compute; reflexivity).
  destruct (file_vanishes_while_polled Cases.env_vanishing Demo.clip Demo.w0 9%nat)
    as [Hwait Hrun].
  split; [exact H0|]. split; [exact H1|]. split; [exact H2|]. split.
  - apply Hwait; [lia | lia | exact H1 | exact H2].
  - exact (Hrun H0 H1 H2).
Defined.

(** X6.  A path that does not exist at the first check, exists after the
    first sleep and has the same size after the second is reported ready
    after two intervals, provided one interval is shorter than the
    timeout. *)
Theorem wait_for_download_late_arrival (E : Env)
    (file_path : string) (timeout check_interval : Z) (w : World) (n : nat) :
  0 < check_interval -> check_interval < timeout ->
  files w !! fs_key file_path = None ->
  size_of file_path (files (slept E check_interval w)) = Some n ->
  size_of file_path (files (slept E check_interval (slept E check_interval w))) = Some n ->
  wait_for_download E file_path timeout check_interval w =
    (printed (finished_message file_path)
       (slept E check_interval (slept E check_interval w)), Returns true).
Proof.
  intros Hi Ht H0 H1 H2. unfold wait_for_download, bind at 1, time_time, poll_budget.
  assert (Hq : (1 <= Z.to_nat (timeout / check_interval))%nat).
  { assert (1 <= timeout / check_interval) by (apply Z.div_le_lower_bound; lia). lia. }
  destruct (Z.to_nat (timeout / check_interval)) as [|k] eqn:Hk; [lia|].
  rewrite wait_loop_absent by (done || lia).
  eapply wait_loop_stable; eauto; simpl; lia.
Qed.

Lemma wait_for_download_late_arrival_witness :
  files Demo.w0 !! fs_key Demo.later = None /\
  wait_for_download Cases.env_arriving Demo.later 900 5 Demo.w0 =
    (printed (finished_message Demo.later)
       (slept Cases.env_arriving 5 (slept Cases.env_arriving 5 Demo.w0)), Returns true) /\
  clock (slept Cases.env_arriving 5 (slept Cases.env_arriving 5 Demo.w0)) = 10.
Proof.
  assert (H0 : files Demo.w0 !! fs_key Demo.later = None) by (vm_compute; reflexivity).
  split; [exact H0|]. split; [|reflexivity].
  apply (wait_for_download_late_arrival Cases.env_arriving Demo.later 900 5 Demo.w0 10%nat);
    [lia | lia | exact H0 | vm_compute; reflexivity | vm_compute; reflexivity].
Defined.

(** X7.  A path that does not exist and never appears is given up on once
    the timeout has elapsed, less than one interval late. *)
Theorem wait_for_download_never_appears (E : Env)
    (file_path : string) (timeout check_interval : Z) (w : World) :
  0 <= timeout -> 0 < check_interval ->
  stays_absent E file_path check_interval ->
  files w !! fs_key file_path = None ->
  exists w', wait_for_download E file_path timeout check_interval w = (w', Returns false) /\
    timeout <= clock w' - clock w < timeout + check_interval /\
    files w' !! fs_key file_path = None.
Proof.
  intros Ht Hi Hstay Hnone.
  destruct (wait_loop_never_there E (poll_budget timeout check_interval) file_path
              timeout check_interval (clock w) w Hi Hstay Hnone) as (w' & Hrun & Hnone').
  { pose proof (poll_budget_enough timeout check_interval Hi). lia. }
  assert (Hwait : wait_for_download E file_path timeout check_interval w
                  = (w', Returns false)) by exact Hrun.
  destruct (wait_for_download_time E _ _ _ _ _ _ Ht Hi Hwait) as (_ & Hc & Hfalse & _).
  exists w'. split; [done|]. split; [|done]. specialize (Hfalse eq_refl). lia.
Qed.

Lemma wait_for_download_never_appears_witness :
  stays_absent Demo.env Demo.later 5 /\
  files Demo.w0 !! fs_key Demo.later = None /\
  exists w', wait_for_download Demo.env Demo.later 900 5 Demo.w0 = (w', Returns false) /\
    900 <= clock w' - clock Demo.w0 < 900 + 5 /\
    files w' !! fs_key Demo.later = None.
Proof.
  assert (Hs : stays_absent Demo.env Demo.later 5) by (intros t fs Hnone; exact Hnone).
  assert (H0 : files Demo.w0 !! fs_key Demo.later = None) by (vm_compute; reflexivity).
  split; [exact Hs|]. split; [exact H0|].
  exact (wait_for_download_never_appears Demo.env Demo.later 900 5 Demo.w0
           ltac:(lia) ltac:(lia) Hs H0).
Defined.

(** X8.  Whatever happens to the file, with a positive interval
    [wait_for_download] ends, less than one interval after the timeout; it
    reports not ready only when the timeout has elapsed; it leaves the
    dictionary alone, does nothing but sleep and print, and the time it takes
    is the interval times the number of its sleeps. *)
Theorem wait_for_download_bounded (E : Env)
    (file_path : string) (timeout check_interval : Z) (w w' : World) (r : Outcome bool) :
  0 <= timeout -> 0 < check_interval ->
  wait_for_download E file_path timeout check_interval w = (w', r) ->
  r <> OutOfFuel /\
  0 <= clock w' - clock w < timeout + check_interval /\
  (r = Returns false -> timeout <= clock w' - clock w) /\
  processed_files w' = processed_files w /\
  exists delta, extends w w' delta /\
    Forall (fun e => is_sleep e || is_print e = true) delta /\
    clock w' - clock w = check_interval * Z.of_nat (count is_sleep delta).
Proof. apply wait_for_download_time. Qed.

Lemma wait_for_download_bounded_witness :
  wait_for_download Demo.env_growing Demo.video 900 5 Demo.w0 =
    (Cases.video_given_up, Returns false) /\
  0 <= clock Cases.video_given_up - clock Demo.w0 < 900 + 5 /\
  900 <= clock Cases.video_given_up - clock Demo.w0 /\
  exists delta, extends Demo.w0 Cases.video_given_up delta /\
    Forall (fun e => is_sleep e || is_print e = true) delta /\
    clock Cases.video_given_up - clock Demo.w0 = 5 * Z.of_nat (count is_sleep delta).
Proof.
  assert (H : wait_for_download Demo.env_growing Demo.video 900 5 Demo.w0 =
              (Cases.video_given_up, Returns false)) by (vm_compute; reflexivity).
  destruct (wait_for_download_bounded Demo.env_growing Demo.video 900 5 Demo.w0
              Cases.video_given_up (Returns false) ltac:(lia) ltac:(lia) H)
    as (_ & Hc & Hfalse & _ & Hdelta).
  split; [exact H|]. split; [exact Hc|]. split; [exact (Hfalse eq_refl) | exact Hdelta].
Defined.

(** X9.  [wait_for_download] reports ready only after it has seen the same
    size in two samples one sleep apart: the second sample is the size of the
    file in the world it returns. *)
Theorem wait_for_download_true_means_two_equal_samples (E : Env)
    (file_path : string) (timeout check_interval : Z) (w w' : World) :
  0 <= check_interval ->
  wait_for_download E file_path timeout check_interval w = (w', Returns true) ->
  exists v n,
    w' = printed (finished_message file_path) (slept E check_interval v) /\
    size_of file_path (files v) = Some n /\
    size_of file_path (files w') = Some n /\
    clock w' = clock v + check_interval.
Proof.
  intros Hi Hrun. unfold wait_for_download, bind at 1, time_time in Hrun.
  apply wait_loop_true in Hrun as (v & n & -> & H1 & H2); [|done].
  by exists v, n.
Qed.

Lemma wait_for_download_true_means_two_equal_samples_witness :
  wait_for_download Demo.env Demo.clip 900 5 Demo.w0 = (Cases.clip_ready, Returns true) /\
  exists v n,
    Cases.clip_ready = printed (finished_message Demo.clip) (slept Demo.env 5 v) /\
    size_of Demo.clip (files v) = Some n /\
    size_of Demo.clip (files Cases.clip_ready) = Some n /\
    clock Cases.clip_ready = clock v + 5.
Proof.
  assert (H : wait_for_download Demo.env Demo.clip 900 5 Demo.w0 =
              (Cases.clip_ready, Returns true)) by (vm_compute; reflexivity).
  split; [exact H|].
  exact (wait_for_download_true_means_two_equal_samples Demo.env Demo.clip 900 5
           Demo.w0 Cases.clip_ready ltac:(lia) H).
Defined.

(** X10.  When the readiness wait gives up, [transcribe_file] prints that it
    skips the file and returns: the path is still not in the dictionary, so a
    later call handles it again, and the call has done nothing but sleep 180
    times and print. *)
Theorem transcribe_file_not_ready (E : Env) (file_path : string) (w w1 : World) :
  processed_files w !! file_path = None ->
  wait_for_download E file_path 900 5 w = (w1, Returns false) ->
  transcribe_file E file_path w =
    (printed ("Skipping file " +:+ file_path +:+ " due to incomplete download.") w1,
     Returns tt) /\
  processed_files w1 !! file_path = None /\
  900 <= clock w1 - clock w < 905 /\
  exists delta, extends w w1 delta /\
    Forall (fun e => is_sleep e || is_print e = true) delta /\
    count is_sleep delta = 180%nat.
Proof.
  intros Hk Hw. split; [apply transcribe_file_complete; by apply Run_unstable|].
  destruct (wait_for_download_time E file_path 900 5 w w1 (Returns false)
              ltac:(lia) ltac:(lia) Hw)
    as (_ & Hc & Hfalse & Hp & delta & Hd & Hq & Hn).
  specialize (Hfalse eq_refl).
  split; [by rewrite Hp|]. split; [lia|].
  exists delta. repeat split; try done. lia.
Qed.

Lemma transcribe_file_not_ready_witness :
  processed_files Demo.w0 !! Demo.video = None /\
  wait_for_download Demo.env_growing Demo.video 900 5 Demo.w0 =
    (Cases.video_given_up, Returns false) /\
  transcribe_file Demo.env_growing Demo.video Demo.w0 =
    (printed ("Skipping file " +:+ Demo.video +:+ " due to incomplete download.")
       Cases.video_given_up, Returns tt) /\
  processed_files Cases.video_given_up !! Demo.video = None.
Proof.
  assert (H0 : processed_files Demo.w0 !! Demo.video = None) by (vm_compute; reflexivity).
  assert (H1 : wait_for_download Demo.env_growing Demo.video 900 5 Demo.w0 =
               (Cases.video_given_up, Returns false)) by (vm_compute; reflexivity).
  destruct (transcribe_file_not_ready Demo.env_growing Demo.video Demo.w0
              Cases.video_given_up H0 H1) as (Hrun & Hk & _).
  split; [exact H0|]. split; [exact H1|]. split; [exact Hrun | exact Hk].
Defined.

(** X11.  The processed set only grows.  A call of [transcribe_file] keeps
    every entry of another path as it is, and the orchestrator, the watcher's
    handler and the scan all end with a dictionary that contains the one they
    started with, however they end. *)
Theorem processed_set_only_grows (E : Env) (w w' : World) :
  (forall file_path r,
     transcribe_file E file_path w = (w', r) ->
     processed_files w ⊆ processed_files w' /\
     forall key, key <> file_path -> processed_files w' !! key = processed_files w !! key) /\
  (forall event r,
     on_created E event w = (w', r) -> processed_files w ⊆ processed_files w') /\
  (forall walk r,
     scan_walk E walk w = (w', r) -> processed_files w ⊆ processed_files w').
Proof.
  split; [|split].
  - intros file_path r Hrun. split; [by eapply transcribe_file_grows|].
    intros key Hne.
    destruct (transcribe_file_dict E _ _ _ _ Hrun) as [-> | (Hk & tf & _ & ->)]; [done|].
    by rewrite lookup_insert_ne.
  - intros [dir src] r. unfold on_created. simpl.
    destruct dir; [by intros [= <- <-]|].
    destruct (bool_decide _); [apply transcribe_file_grows | by intros [= <- <-]].
  - intros walk r. unfold scan_walk.
    apply (for_each_invariant (fun a b => processed_files a ⊆ processed_files b)).
    + done.
    + intros a b c Hab Hbc. by etrans.
    + intros [[root dirs] names] v v' r'.
      apply (for_each_invariant (fun a b => processed_files a ⊆ processed_files b)).
      * done.
      * intros a b c Hab Hbc. by etrans.
      * intros file u u' r''. destruct (bool_decide _);
          [apply transcribe_file_grows | by intros [= <- <-]].
Qed.

Lemma processed_set_only_grows_witness :
  transcribe_file Demo.env Demo.video Cases.w_known =
    ((transcribe_file Demo.env Demo.video Cases.w_known).1, Returns tt) /\
  processed_files Cases.w_known
    ⊆ processed_files (transcribe_file Demo.env Demo.video Cases.w_known).1 /\
  processed_files (transcribe_file Demo.env Demo.video Cases.w_known).1 !! Demo.clip =
    processed_files Cases.w_known !! Demo.clip.
Proof.
  assert (H : transcribe_file Demo.env Demo.video Cases.w_known =
              ((transcribe_file Demo.env Demo.video Cases.w_known).1, Returns tt))
    by (vm_compute; reflexivity).
  destruct (processed_set_only_grows Demo.env Cases.w_known
              (transcribe_file Demo.env Demo.video Cases.w_known).1) as (Hone & _ & _).
  destruct (Hone Demo.video (Returns tt) H) as [Hsub Hkeep].
  split; [exact H|]. split; [exact Hsub|]. apply Hkeep. vm_compute. discriminate.
Defined.

(** X12.  The processed set is keyed by the path string as given.  Two
    different strings that denote the same path ([./media/a.mp3] and
    [media/a.mp3]) are two keys: when both are handled, the same transcript
    file is written twice and both strings are recorded with the same
    transcript name. *)
Theorem same_file_under_two_spellings (E : Env) (path1 path2 : string) (w w1 w2 : World) :
  path1 <> path2 -> Path path1 = Path path2 ->
  processed_files w !! path1 = None -> processed_files w !! path2 = None ->
  transcribe_file E path1 w = (w1, Returns tt) ->
  is_Some (processed_files w1 !! path1) ->
  transcribe_file E path2 w1 = (w2, Returns tt) ->
  is_Some (processed_files w2 !! path2) ->
  exists text_file text,
    with_suffix (Path path1) ".txt" = Returns text_file /\
    processed_files w2 =
      <[path2 := name text_file]> (<[path1 := name text_file]> (processed_files w)) /\
    files w2 !! str text_file = Some text /\
    exists delta, extends w w2 delta /\
      count is_write delta = 2%nat /\
      Forall (fun e => is_write e = true ->
                       exists t, e = EWrite (str text_file) "utf-8" t) delta.
Proof.
  intros Hne Hsame Hk1 Hk2 Hrun1 Hrec1 Hrun2 Hrec2.
  destruct (run_recorded_end E _ _ _ Hk1 Hrun1 Hrec1)
    as (tf1 & text1 & pre1 & Hs1 & Hp1 & _ & _ & Hq1 & Hd1).
  assert (Hk2' : processed_files w1 !! path2 = None).
  { rewrite Hp1. by rewrite lookup_insert_ne. }
  destruct (run_recorded_end E _ _ _ Hk2' Hrun2 Hrec2)
    as (tf2 & text2 & pre2 & Hs2 & Hp2 & _ & Hf2 & Hq2 & Hd2).
  rewrite <- Hsame, Hs1 in Hs2. injection Hs2 as <-.
  exists tf1, text2. split; [done|]. split; [by rewrite Hp2, Hp1|]. split; [done|].
  eexists. split; [eapply extends_trans; [exact Hd1 | exact Hd2]|].
  pose proof (prelude_no_write _ Hq1) as [Hc1 _].
  pose proof (prelude_no_write _ Hq2) as [Hc2 _].
  split.
  - rewrite !count_app, Hc1, Hc2. done.
  - assert (Hpre : forall l, Forall (fun e => is_prelude e = true) l ->
        Forall (fun e => is_write e = true ->
                         exists t, e = EWrite (str tf1) "utf-8" t) l).
    { intros l Hl. eapply Forall_impl; [exact Hl|]. by intros [] He Hw. }
    assert (Htail : forall t d m,
        Forall (fun e => is_write e = true ->
                         exists t', e = EWrite (str tf1) "utf-8" t')
          [EWrite (str tf1) "utf-8" t; EDump PROCESSED_FILES d; EPrint m]).
    { intros t d m. constructor; [eauto|]. constructor; [by intros [=]|].
      constructor; [by intros [=] | constructor]. }
    apply Forall_app. split; apply Forall_app; split; auto.
Qed.

Lemma same_file_under_two_spellings_witness :
  Demo.clip <> Cases.clip_again /\ Path Demo.clip = Path Cases.clip_again /\
  transcribe_file Demo.env Demo.clip Demo.w0 = (Demo.after_clip, Returns tt) /\
  transcribe_file Demo.env Cases.clip_again Demo.after_clip = (Cases.after_both, Returns tt) /\
  exists text_file text,
    with_suffix (Path Demo.clip) ".txt" = Returns text_file /\
    processed_files Cases.after_both =
      <[Cases.clip_again := name text_file]>
        (<[Demo.clip := name text_file]> (processed_files Demo.w0)) /\
    files Cases.after_both !! str text_file = Some text /\
    exists delta, extends Demo.w0 Cases.after_both delta /\
      count is_write delta = 2%nat /\
      Forall (fun e => is_write e = true ->
                       exists t, e = EWrite (str text_file) "utf-8" t) delta.
Proof.
  assert (Hne : Demo.clip <> Cases.clip_again) by (vm_compute; discriminate).
  assert (Hsame : Path Demo.clip = Path Cases.clip_again) by reflexivity.
  assert (Hk1 : processed_files Demo.w0 !! Demo.clip = None) by (vm_compute; reflexivity).
  assert (Hk2 : processed_files Demo.w0 !! Cases.clip_again = None)
    by (vm_compute; reflexivity).
  assert (H1 : transcribe_file Demo.env Demo.clip Demo.w0 = (Demo.after_clip, Returns tt))
    by (vm_compute; reflexivity).
  assert (Hr1 : is_Some (processed_files Demo.after_clip !! Demo.clip))
    by (vm_compute; eexists; reflexivity).
  assert (H2 : transcribe_file Demo.env Cases.clip_again Demo.after_clip
               = (Cases.after_both, Returns tt)) by (vm_compute; reflexivity).
  assert (Hr2 : is_Some (processed_files Cases.after_both !! Cases.clip_again))
    by (vm_compute; eexists; reflexivity).
  split; [exact Hne|]. split; [exact Hsame|]. split; [exact H1|]. split; [exact H2|].
  exact (same_file_under_two_spellings Demo.env Demo.clip Cases.clip_again
           Demo.w0 Demo.after_clip Cases.after_both Hne Hsame Hk1 Hk2 H1 Hr1 H2 Hr2).
Defined.

(** X13.  A call of [transcribe_file] that records its path calls the model
    exactly once and ffmpeg at most once.  For a video the model gets the
    [.wav] sibling and ffmpeg, when it runs, is given the normalised input
    path and that sibling; for any other file ffmpeg is not run and the model
    gets the normalised input path. *)
Theorem external_calls_of_a_recorded_run (E : Env) (file_path : string) (w w' : World) :
  processed_files w !! file_path = None ->
  transcribe_file E file_path w = (w', Returns tt) ->
  is_Some (processed_files w' !! file_path) ->
  exists delta audio,
    extends w w' delta /\
    count is_transcribe delta = 1%nat /\
    ETranscribe (str audio) ∈ delta /\
    (count is_run delta <= 1)%nat /\
    (forall argv, ERun argv ∈ delta ->
       argv = ["ffmpeg"; "-i"; fs_key file_path; str audio]) /\
    (Str.lower (suffix (Path file_path)) ∉ VIDEO_SUFFIXES ->
     str audio = fs_key file_path /\ count is_run delta = 0%nat) /\
    (Str.lower (suffix (Path file_path)) ∈ VIDEO_SUFFIXES ->
     with_suffix (Path file_path) ".wav" = Returns audio).
Proof.
  intros Hk Hrun Hrec.
  destruct (run_recorded E file_path w w' Hk Hrun Hrec)
    as (w1 & w2 & audio & text & tf & Hw & Hx & Ht & Hs & Hw1 & Hw2 & ->).
  apply wait_for_download_effect in Hw as (_ & d1 & Hd1 & Hq1).
  assert (Hc1 : count is_transcribe d1 = 0%nat /\ count is_run d1 = 0%nat).
  { split; (eapply count_none; [|exact Hq1]); by intros []. }
  destruct Hc1 as [Hct1 Hcr1].
  assert (Hnorun : forall argv, ERun argv ∈ d1 -> False).
  { intros argv Hin. by apply (elem_of_sleep_print _ _ Hq1) in Hin. }
  set (tail := [ETranscribe (str audio); EWrite (str tf) "utf-8" text;
                EDump PROCESSED_FILES (<[file_path := name tf]> (processed_files w2));
                EPrint ("Saved transcription: " +:+ str tf)]).
  apply extract_audio_cases in Hx.
  assert (Hmid : exists d2, extends (printed ("Processing: " +:+ file_path) w1) w2 d2 /\
     (d2 = [] \/ d2 = [ERun ["ffmpeg"; "-i"; fs_key file_path; str audio]]) /\
     (Str.lower (suffix (Path file_path)) ∉ VIDEO_SUFFIXES ->
        audio = Path file_path /\ d2 = []) /\
     (Str.lower (suffix (Path file_path)) ∈ VIDEO_SUFFIXES ->
        with_suffix (Path file_path) ".wav" = Returns audio)).
  { inversion Hx as [Hv|a Hv Ha Hex|a out Hv Ha Hex Hf|]; subst.
    - exists []. split; [unfold extends; by rewrite app_nil_r|]. split; [by left|].
      split; [done | by intros Hv'].
    - exists []. split; [unfold extends; by rewrite app_nil_r|]. split; [by left|].
      split; [by intros Hv' | done].
    - eexists. split; [reflexivity|]. split; [by right|].
      split; [by intros Hv' | done]. }
  destruct Hmid as (d2 & Hd2 & Hshape & Hother & Hvideo).
  exists (d1 ++ [EPrint ("Processing: " +:+ file_path)] ++ d2 ++ tail), audio.
  assert (Hcount2 : count is_transcribe d2 = 0%nat /\ (count is_run d2 <= 1)%nat).
  { destruct Hshape as [-> | ->]; unfold count; simpl; lia. }
  split.
  { unfold extends in *. simpl in *. rewrite Hd2. simpl. rewrite Hd1.
    by rewrite <- !app_assoc. }
  split; [rewrite !count_app, Hct1; destruct Hcount2 as [-> _]; done|].
  split; [rewrite !elem_of_app; right; right; right; unfold tail; apply list_elem_of_here|].
  split; [rewrite !count_app, Hcr1; unfold tail, count at 1 3; simpl; lia|].
  split.
  { intros argv. rewrite !elem_of_app. intros [Hin|[Hin|[Hin|Hin]]].
    - by apply Hnorun in Hin.
    - apply list_elem_of_singleton in Hin. discriminate.
    - destruct Hshape as [-> | ->]; [by apply elem_of_nil in Hin|].
      apply list_elem_of_singleton in Hin. by injection Hin as ->.
    - unfold tail in Hin.
      repeat (apply elem_of_cons in Hin as [Hin|Hin]; [discriminate|]).
      by apply elem_of_nil in Hin. }
  split; [|done].
  intros Hv. destruct (Hother Hv) as [-> ->]. split; [done|].
  rewrite !count_app, Hcr1. done.
Qed.

Lemma external_calls_of_a_recorded_run_witness :
  transcribe_file Demo.env Demo.video Demo.w0 = (Demo.after_video, Returns tt) /\
  exists delta audio,
    extends Demo.w0 Demo.after_video delta /\
    count is_transcribe delta = 1%nat /\
    ETranscribe (str audio) ∈ delta /\
    (count is_run delta <= 1)%nat /\
    (forall argv, ERun argv ∈ delta ->
       argv = ["ffmpeg"; "-i"; fs_key Demo.video; str audio]) /\
    (Str.lower (suffix (Path Demo.video)) ∉ VIDEO_SUFFIXES ->
     str audio = fs_key Demo.video /\ count is_run delta = 0%nat) /\
    (Str.lower (suffix (Path Demo.video)) ∈ VIDEO_SUFFIXES ->
     with_suffix (Path Demo.video) ".wav" = Returns audio).
Proof.
  assert (Hk : processed_files Demo.w0 !! Demo.video = None) by (vm_compute; reflexivity).
  assert (H1 : transcribe_file Demo.env Demo.video Demo.w0 = (Demo.after_video, Returns tt))
    by (vm_compute; reflexivity).
  assert (Hr : is_Some (processed_files Demo.after_video !! Demo.video))
    by (vm_compute; eexists; reflexivity).
  split; [exact H1|].
  exact (external_calls_of_a_recorded_run Demo.env Demo.video Demo.w0 Demo.after_video
           Hk H1 Hr).
Defined.

(** X14.  [extract_audio] decides by the existence of the audio sibling
    alone.  When ffmpeg fails but has left data at the sibling path, the call
    raises [CalledProcessError]; a second call finds the file and returns it
    without running ffmpeg again. *)
Theorem extract_audio_trusts_partial_output (E : Env)
    (p audio : PurePath) (w : World) (data : string) (returncode : Z) :
  Str.lower (suffix p) ∈ VIDEO_SUFFIXES ->
  with_suffix p ".wav" = Returns audio ->
  files w !! str audio = None ->
  ffmpeg E (str p) (str audio) (files w) = (Some data, returncode) ->
  returncode <> 0 ->
  let w1 := ran_ffmpeg (str p) (str audio) (Some data) w in
  extract_audio E p w = (w1, Raises (CalledProcessError returncode)) /\
  extract_audio E p w1 = (w1, Returns audio) /\
  files w1 !! str audio = Some data.
Proof.
  intros Hv Ha Hex Hf Hc w1.
  assert (Hd : files w1 !! str audio = Some data) by (simpl; apply lookup_insert_eq).
  split; [|split; [|done]].
  - rewrite (extract_audio_absent E p audio w (Some data) returncode) by done.
    apply Z.eqb_neq in Hc. by rewrite Hc.
  - apply extract_audio_present; [done | done | by rewrite Hd].
Qed.

Lemma extract_audio_trusts_partial_output_witness :
  let w1 := ran_ffmpeg (str (Path Demo.video)) (str Cases.video_wav) (Some "RIFF") Demo.w0 in
  with_suffix (Path Demo.video) ".wav" = Returns Cases.video_wav /\
  files Demo.w0 !! str Cases.video_wav = None /\
  extract_audio Cases.env_partial (Path Demo.video) Demo.w0 =
    (w1, Raises (CalledProcessError 1)) /\
  extract_audio Cases.env_partial (Path Demo.video) w1 = (w1, Returns Cases.video_wav) /\
  files w1 !! str Cases.video_wav = Some "RIFF".
Proof.
  assert (Hv : Str.lower (suffix (Path Demo.video)) ∈ VIDEO_SUFFIXES)
    by (apply (bool_decide_unpack _); vm_compute; exact I).
  assert (Ha : with_suffix (Path Demo.video) ".wav" = Returns Cases.video_wav)
    by reflexivity.
  assert (Hex : files Demo.w0 !! str Cases.video_wav = None) by (vm_compute; reflexivity).
  intros w1. split; [exact Ha|]. split; [exact Hex|].
  exact (extract_audio_trusts_partial_output Cases.env_partial (Path Demo.video)
           Cases.video_wav Demo.w0 "RIFF" 1 Hv Ha Hex eq_refl ltac:(lia)).
Defined.



(** X16.  The two loops of the scan are the orchestrator applied, in the
    order of the listing, to the joined paths of the names that pass the
    extension test. *)
Theorem scan_is_the_orchestrator_in_listing_order (E : Env) (w : World) :
  (forall walk,
     scan_walk E walk w = for_each (supported_paths walk) (transcribe_file E) w) /\
  scan_existing_files E w =
    for_each (supported_paths (os_walk E WATCH_DIR (files w))) (transcribe_file E) w.
Proof.
  split; [intros walk; apply scan_walk_sequence|].
  unfold scan_existing_files. apply scan_walk_sequence.
Qed.

(** X17.  An exception of the orchestrator ends the scan: when the paths
    before [file_path] have been handled and [transcribe_file] raises on
    [file_path], the scan raises the same exception in the same world, and
    the paths after it are not touched. *)
Theorem scan_stops_at_the_first_exception (E : Env)
    (walk : list (string * list string * list string))
    (done_paths rest : list string) (file_path : string)
    (w w1 w2 : World) (e : exn) :
  supported_paths walk = done_paths ++ file_path :: rest ->
  for_each done_paths (transcribe_file E) w = (w1, Returns tt) ->
  transcribe_file E file_path w1 = (w2, Raises e) ->
  scan_walk E walk w = (w2, Raises e).
Proof.
  intros Hpaths Hdone Hfail. rewrite scan_walk_sequence, Hpaths, for_each_app.
  unfold bind. rewrite Hdone. simpl. unfold bind. by rewrite Hfail.
Qed.

Lemma scan_stops_at_the_first_exception_witness :
  supported_paths Cases.walk = [Demo.clip] ++ Demo.video :: [] /\
  for_each [Demo.clip] (transcribe_file Demo.env_no_ffmpeg) Demo.w0 =
    (Cases.scan_after_clip, Returns tt) /\
  transcribe_file Demo.env_no_ffmpeg Demo.video Cases.scan_after_clip =
    (Cases.scan_failed, Raises (CalledProcessError 1)) /\
  scan_walk Demo.env_no_ffmpeg Cases.walk Demo.w0 =
    (Cases.scan_failed, Raises (CalledProcessError 1)).
Proof.
  assert (H0 : supported_paths Cases.walk = [Demo.clip] ++ Demo.video :: [])
    by (vm_compute; reflexivity).
  assert (H1 : for_each [Demo.clip] (transcribe_file Demo.env_no_ffmpeg) Demo.w0 =
               (Cases.scan_after_clip, Returns tt)) by (vm_compute; reflexivity).
  assert (H2 : transcribe_file Demo.env_no_ffmpeg Demo.video Cases.scan_after_clip =
               (Cases.scan_failed, Raises (CalledProcessError 1)))
    by (vm_compute; reflexivity).
  split; [exact H0|]. split; [exact H1|]. split; [exact H2|].
  exact (scan_stops_at_the_first_exception Demo.env_no_ffmpeg Cases.walk [Demo.clip] []
           Demo.video Demo.w0 Cases.scan_after_clip Cases.scan_failed
           (CalledProcessError 1) H0 H1 H2).
Defined.

(** X18.  A scan of a listing whose supported paths are all in the
    dictionary prints one skip message per path, in order, and changes
    neither the files, the clock nor the dictionary. *)
Theorem rescan_of_processed_files_only_prints (E : Env)
    (walk : list (string * list string * list string)) (w : World) :
  Forall (fun p => is_Some (processed_files w !! p)) (supported_paths walk) ->
  scan_walk E walk w =
    (mkWorld (files w) (clock w) (processed_files w)
       (trace w ++ List.map (fun p => EPrint ("Skipping already processed file: " +:+ p))
                     (supported_paths walk)),
     Returns tt).
Proof. intros Hall. rewrite scan_walk_sequence. by apply for_each_known. Qed.

Lemma rescan_of_processed_files_only_prints_witness :
  Forall (fun p => is_Some (processed_files Cases.w_known !! p))
    (supported_paths Cases.walk_audio) /\
  scan_walk Demo.env Cases.walk_audio Cases.w_known =
    (mkWorld (files Cases.w_known) (clock Cases.w_known) (processed_files Cases.w_known)
       (trace Cases.w_known ++
        List.map (fun p => EPrint ("Skipping already processed file: " +:+ p))
          (supported_paths Cases.walk_audio)),
     Returns tt).
Proof.
  assert (H : Forall (fun p => is_Some (processed_files Cases.w_known !! p))
                (supported_paths Cases.walk_audio)).
  { vm_compute. constructor; [eexists; reflexivity | constructor]. }
  split; [exact H|].
  exact (rescan_of_processed_files_only_prints Demo.env Cases.walk_audio Cases.w_known H).
Defined.

(** X19.  For a file name that contains a dot, the watcher's handler on the
    joined path does what the scan of a directory holding only that file
    does. *)
Theorem watcher_and_scanner_agree_on_dotted_names (E : Env)
    (root : string) (dirs : list string) (file : string) (w : World) :
  Str.contains "." file = true ->
  on_created E (mkEvent false (os_path_join root file)) w =
    scan_walk E [(root, dirs, [file])] w.
Proof.
  intros Hf. unfold on_created, scan_walk. simpl.
  rewrite last_dot_segment_join by done.
  destruct (bool_decide (last_dot_segment file ∈ SUPPORTED_FORMATS)).
  - rewrite bind_ret_unit. by rewrite bind_ret_unit.
  - done.
Qed.

Lemma watcher_and_scanner_agree_on_dotted_names_witness :
  Str.contains "." "clip.mp3" = true /\
  on_created Demo.env (mkEvent false (os_path_join "./media" "clip.mp3")) Demo.w0 =
    scan_walk Demo.env [("./media", [], ["clip.mp3"])] Demo.w0.
Proof.
  assert (H : Str.contains "." "clip.mp3" = true) by reflexivity.
  split; [exact H|].
  exact (watcher_and_scanner_agree_on_dotted_names Demo.env "./media" [] "clip.mp3"
           Demo.w0 H).
Defined.
